(** * GetSubscriptionsFeed: the daily subscriptions feed of a service

    A shallow embedding of [GetSubscriptionsFeedHandler]
    (GetSubscriptionsFeed/handler.ts) and of the JavaScript values it works
    on, followed by the properties of the feed it computes. *)

From Stdlib Require Import ZArith Lia Ascii String.
From stdpp Require Import base decidable list strings pretty gmap sets.

Open Scope Z_scope.

(** ** JavaScript values used by the handler *)

(** A [FiscalCodeHash] is an opaque string. *)
Definition FiscalCodeHash := string.

(** A JavaScript [Set] of strings: the values in insertion order, each one
    once.  [forEach] visits them in that order. *)
Module JSSet.

Record t := mk { values : list string; values_NoDup : NoDup values }.

Definition empty : t := mk [] (NoDup_nil_2 (A := string)).

Definition has (s : t) (x : string) : bool := bool_decide (x ∈ values s).

Lemma add_NoDup (s : t) (x : string) : x ∉ values s → NoDup (values s ++ [x]).
Proof.
  intros Hx. apply NoDup_app. split; [apply values_NoDup|].
  split; [|apply NoDup_singleton].
  intros y Hy Hy'. apply list_elem_of_singleton in Hy'. by subst.
Qed.

(** [s.add(x)]: appends [x] unless it is already a member. *)
Definition add (s : t) (x : string) : t :=
  match decide (x ∈ values s) with
  | left _ => s
  | right Hx => mk (values s ++ [x]) (add_NoDup s x Hx)
  end.

(** [s.forEach(f)], where the callback updates a captured variable of
    type [A]: the variable's value is threaded through the calls. *)
Definition forEach {A} (s : t) (f : A → string → A) (captured : A) : A :=
  foldl f captured (values s).

(** [new Set(l)]. *)
Definition of_list (l : list string) : t := foldl add empty l.

(** The membership of a set, without the insertion order. *)
Definition members (s : t) : gset string := list_to_set (values s).

End JSSet.

(** [arr.push(x)] on a JavaScript array. *)
Definition push {A} (arr : list A) (x : A) : list A := arr ++ [x].

(** ** The reconciliation of the three user sets

    The body of the handler from [const subscriptions = new Array()] to the
    last [forEach]: the two output arrays, computed from the three sets that
    [queryUsers] returned. *)
Definition reconcile
    (profileSubscriptionsSet serviceSubscriptionsSet
       serviceUnsubscriptionsSet : JSSet.t)
    : list FiscalCodeHash * list FiscalCodeHash :=
  let subscriptions : list FiscalCodeHash := [] in
  let subscriptions :=
    JSSet.forEach profileSubscriptionsSet (fun subscriptions ps =>
      if negb (JSSet.has serviceUnsubscriptionsSet ps)
      then push subscriptions ps
      else subscriptions) subscriptions in
  let subscriptions :=
    JSSet.forEach serviceSubscriptionsSet (fun subscriptions ss =>
      if negb (JSSet.has profileSubscriptionsSet ss)
      then push subscriptions ss
      else subscriptions) subscriptions in
  let unsubscriptions : list FiscalCodeHash := [] in
  let unsubscriptions :=
    JSSet.forEach serviceUnsubscriptionsSet (fun unsubscriptions su =>
      if negb (JSSet.has profileSubscriptionsSet su)
      then push unsubscriptions su
      else unsubscriptions) unsubscriptions in
  (subscriptions, unsubscriptions).

(** ** JavaScript numbers and dates

    A number is [NaN] or an integer: every time value met here is an integer
    far below 2^53, where the arithmetic of doubles is exact. *)
Module JSNumber.

Inductive t := NaN | Num (z : Z).

Definition add (a b : t) : t :=
  match a, b with
  | Num x, Num y => Num (x + y)
  | _, _ => NaN
  end.

(** [a < b]: false as soon as one side is [NaN]. *)
Definition lt (a b : t) : bool :=
  match a, b with
  | Num x, Num y => x <? y
  | _, _ => false
  end.

End JSNumber.

(** The [Date] operations of the handler, after ECMAScript's definitions
    (Day, DayFromYear, MakeDay, MakeTime, MakeDate, toUTCString). *)
Module JSDate.

Definition msPerDay : Z := 86400000.
Definition msPerHour : Z := 3600000.
Definition msPerMinute : Z := 60000.
Definition msPerSecond : Z := 1000.

Definition InLeapYear (y : Z) : bool :=
  ((y mod 4 =? 0) && negb (y mod 100 =? 0)) || (y mod 400 =? 0).

Definition DayFromYear (y : Z) : Z :=
  365 * (y - 1970) + (y - 1969) / 4 - (y - 1901) / 100 + (y - 1601) / 400.

(** Day within the year of the first day of month [m] (0 = January). *)
Definition MonthStart (leap : bool) (m : Z) : Z :=
  let L := if leap then 1 else 0 in
  match m with
  | 0 => 0
  | 1 => 31
  | 2 => 59 + L
  | 3 => 90 + L
  | 4 => 120 + L
  | 5 => 151 + L
  | 6 => 181 + L
  | 7 => 212 + L
  | 8 => 243 + L
  | 9 => 273 + L
  | 10 => 304 + L
  | _ => 334 + L
  end.

(** [MakeDay(year, month, date)], month counted from 0. *)
Definition MakeDay (year month date : Z) : Z :=
  let ym := year + month / 12 in
  let mn := month mod 12 in
  DayFromYear ym + MonthStart (InLeapYear ym) mn + date - 1.

Definition MakeTime (hour min sec ms : Z) : Z :=
  hour * msPerHour + min * msPerMinute + sec * msPerSecond + ms.

Definition MakeDate (day time : Z) : Z := day * msPerDay + time.

Definition digit (c : ascii) : option Z :=
  let n := Z.of_nat (nat_of_ascii c) in
  if (48 <=? n) && (n <=? 57) then Some (n - 48) else None.

(** The value of a run of decimal digits. *)
Definition number (cs : list ascii) : option Z :=
  foldl (λ acc c, n ← acc; k ← digit c; Some (10 * n + k)) (Some 0) cs.

(** The characters of [YYYY-MM-DDTHH:mm:ssZ], the one format the handler
    builds.  Ranges are those of Node's parser: month 1..12, day 1..31 (a
    day past the end of its month runs into the next one, through
    [MakeDay]), time up to 23:59:59, or 24:00:00. *)
Definition parseISO (cs : list ascii) : option Z :=
  match cs with
  | [y1; y2; y3; y4; dash1; mo1; mo2; dash2; d1; d2; tee;
     h1; h2; colon1; mi1; mi2; colon2; s1; s2; zed] =>
      if Ascii.eqb dash1 "-" && Ascii.eqb dash2 "-" && Ascii.eqb tee "T"
         && Ascii.eqb colon1 ":" && Ascii.eqb colon2 ":" && Ascii.eqb zed "Z"
      then
        year ← number [y1; y2; y3; y4];
        month ← number [mo1; mo2];
        day ← number [d1; d2];
        hour ← number [h1; h2];
        minute ← number [mi1; mi2];
        second ← number [s1; s2];
        if (1 <=? month) && (month <=? 12) && (1 <=? day) && (day <=? 31)
           && (((hour <=? 23) && (minute <=? 59) && (second <=? 59))
               || ((hour =? 24) && (minute =? 0) && (second =? 0)))
        then Some (MakeDate (MakeDay year (month - 1) day)
                            (MakeTime hour minute second 0))
        else None
      else None
  | _ => None
  end.

(** [new Date(s).getTime()], for [s] in the format above.  Any other
    string is outside this model and is read as an invalid date, although
    the runtime parses more (expanded years, legacy formats): the model is
    the runtime's on the strings of the format above only. *)
Definition getTime (s : string) : JSNumber.t :=
  match parseISO (list_ascii_of_string s) with
  | Some t => JSNumber.Num t
  | None => JSNumber.NaN
  end.

Definition Day (t : Z) : Z := t / msPerDay.
Definition TimeWithinDay (t : Z) : Z := t mod msPerDay.
Definition WeekDay (t : Z) : Z := (Day t + 4) mod 7.

(** Year, month (from 0) and day of the month of a day number. *)
Definition civil (day : Z) : Z * Z * Z :=
  let z := day + 719468 in
  let era := z / 146097 in
  let doe := z - era * 146097 in
  let yoe := (doe - doe / 1460 + doe / 36524 - doe / 146096) / 365 in
  let doy := doe - (365 * yoe + yoe / 4 - yoe / 100) in
  let mp := (5 * doy + 2) / 153 in
  let d := doy - (153 * mp + 2) / 5 + 1 in
  let m := if mp <? 10 then mp + 3 else mp - 9 in
  let y := yoe + era * 400 + (if m <=? 2 then 1 else 0) in
  (y, m - 1, d).

Definition YearFromTime (t : Z) : Z := (civil (Day t)).1.1.
Definition MonthFromTime (t : Z) : Z := (civil (Day t)).1.2.
Definition DateFromTime (t : Z) : Z := (civil (Day t)).2.
Definition HourFromTime (t : Z) : Z := (t / msPerHour) mod 24.
Definition MinFromTime (t : Z) : Z := (t / msPerMinute) mod 60.
Definition SecFromTime (t : Z) : Z := (t / msPerSecond) mod 60.

Definition digitChar (k : Z) : ascii := ascii_of_nat (Z.to_nat (48 + k)).

Definition pad2 (n : Z) : string :=
  String (digitChar (n / 10)) (String (digitChar (n mod 10)) "").

Definition pad4 (n : Z) : string :=
  String (digitChar (n / 1000)) (String (digitChar (n / 100 mod 10))
    (pad2 (n mod 100))).

(** The year of a date string: at least four digits. *)
Definition paddedYear (y : Z) : string :=
  (if y <? 0 then "-" else "") +:+
  (if Z.abs y <? 10000 then pad4 (Z.abs y) else pretty (Z.abs y)).

Definition dayName (wd : Z) : string :=
  match wd with
  | 0 => "Sun" | 1 => "Mon" | 2 => "Tue" | 3 => "Wed"
  | 4 => "Thu" | 5 => "Fri" | _ => "Sat"
  end.

Definition monthName (m : Z) : string :=
  match m with
  | 0 => "Jan" | 1 => "Feb" | 2 => "Mar" | 3 => "Apr" | 4 => "May"
  | 5 => "Jun" | 6 => "Jul" | 7 => "Aug" | 8 => "Sep" | 9 => "Oct"
  | 10 => "Nov" | _ => "Dec"
  end.

(** [new Date(t).toUTCString()]. *)
Definition toUTCString (t : JSNumber.t) : string :=
  match t with
  | JSNumber.NaN => "Invalid Date"
  | JSNumber.Num tv =>
      dayName (WeekDay tv) +:+ ", " +:+ pad2 (DateFromTime tv) +:+ " "
      +:+ monthName (MonthFromTime tv) +:+ " "
      +:+ paddedYear (YearFromTime tv) +:+ " "
      +:+ pad2 (HourFromTime tv) +:+ ":" +:+ pad2 (MinFromTime tv) +:+ ":"
      +:+ pad2 (SecFromTime tv) +:+ " GMT"
  end.

End JSDate.

(** ** The table store and the asynchronous calls on it *)

(** The error of a failed page fetch ([StoreQueryError]). *)
Record StoreQueryError := { message : string }.

(** One round trip to the table store: the table, the partition key of the
    filter and the number of the page asked for. *)
Record StoreCall :=
  { call_table : string; call_partitionKey : string; call_page : nat }.

(** A promise, run to its end: it resolves to a value or rejects with an
    error.  The round trips made so far are threaded through. *)
Inductive Outcome (A : Type) :=
| Resolved (a : A)
| Rejected (e : StoreQueryError).
Arguments Resolved {A} a.
Arguments Rejected {A} e.

Definition Async (A : Type) : Type :=
  list StoreCall → Outcome A * list StoreCall.

Definition resolve {A} (a : A) : Async A := λ calls, (Resolved a, calls).

Definition reject {A} (e : StoreQueryError) : Async A :=
  λ calls, (Rejected e, calls).

(** [await]: a rejection of the awaited promise rejects the rest. *)
Definition await {A B} (m : Async A) (k : A → Async B) : Async B :=
  λ calls,
    match m calls with
    | (Resolved a, calls') => k a calls'
    | (Rejected e, calls') => (Rejected e, calls')
    end.

Definition roundTrip (c : StoreCall) : Async unit :=
  λ calls, (Resolved (), calls ++ [c]).

Notation "'let_await' x := m 'in' k" := (await m (λ x, k))
  (at level 10, x name, m at level 100, k at level 200,
   format "'[v' 'let_await'  x  :=  m  'in' '/' k ']'").

(** Modelled from the spec: the row of an event stream, [UserRecord], whose
    declaration is in GetSubscriptionsFeed/utils.ts, not under src/. *)
Record UserRecord :=
  { partitionKey : string; rowKey : string; userIdentifier : FiscalCodeHash }.

(** The answer of the store to one page fetch. *)
Inductive PageFetch :=
| Page (records : list UserRecord)
| PageFailure (e : StoreQueryError).

(** Modelled from the spec: [queryFilterForKey] of
    GetSubscriptionsFeed/utils.ts, not under src/: the exact-match filter on
    a partition key. *)
Record TableQuery := { partitionKeyEq : string }.

Definition queryFilterForKey (key : string) : TableQuery :=
  {| partitionKeyEq := key |}.

(** The store client ([TableService] of azure-storage), by what it answers:
    for a table and a filter, the first page and the pages that its
    continuation tokens lead to, finitely many. *)
Definition TableService : Type :=
  string → TableQuery → PageFetch * list PageFetch.

(** Modelled from the spec: [PagedQuery] of GetSubscriptionsFeed/utils.ts,
    not under src/: a query bound to a table and a filter, ready to be paged
    through, with the pages that the store will answer. *)
Record PagedQuery :=
  { pq_table : string; pq_query : TableQuery;
    pq_pages : PageFetch * list PageFetch }.

(** Modelled from the spec: [getPagedQuery] of
    GetSubscriptionsFeed/utils.ts, not under src/. *)
Definition getPagedQuery (tableService : TableService) (table : string)
    (query : TableQuery) : PagedQuery :=
  {| pq_table := table; pq_query := query;
     pq_pages := tableService table query |}.

(** Modelled from the spec: the loop of [queryUsers] over the pages
    (GetSubscriptionsFeed/utils.ts, not under src/).  The scan of the pages
    left, [token] being the number of the next one: each fetch is a round
    trip, a failed fetch rejects, and the user identifier of every record of
    a page is added to the set. *)
Fixpoint scanPages (table key : string) (token : nat)
    (pages : list PageFetch) (entries : JSSet.t) : Async JSSet.t :=
  match pages with
  | [] => resolve entries
  | fetch :: rest =>
      let_await _ := roundTrip {| call_table := table;
                                  call_partitionKey := key;
                                  call_page := token |} in
      match fetch with
      | PageFailure e => reject e
      | Page records =>
          scanPages table key (S token) rest
            (foldl (λ entries r, JSSet.add entries (userIdentifier r))
               entries records)
      end
  end.

(** Modelled from the spec: [queryUsers] of GetSubscriptionsFeed/utils.ts,
    not under src/ (the spec's PagedScanner and UserSetCollector): pages
    through the query to its end and returns the set of the user identifiers
    met; the first failed fetch fails the whole scan. *)
Definition queryUsers (pagedQuery : PagedQuery) : Async JSSet.t :=
  scanPages (pq_table pagedQuery) (partitionKeyEq (pq_query pagedQuery)) 0
    ((pq_pages pagedQuery).1 :: (pq_pages pagedQuery).2) JSSet.empty.

(** ** The handler *)

Record Service := { serviceId : string }.
Record IAzureUserAttributes := { service : Service }.

Record SubscriptionsFeed :=
  { dateUTC : string;
    subscriptions : list FiscalCodeHash;
    unsubscriptions : list FiscalCodeHash }.

Inductive Response :=
| ResponseErrorNotFound (title detail : string)
| ResponseSuccessJson (feed : SubscriptionsFeed).

(** The handler's [availableSince]: subscription data for a certain day
    becomes available at the beginning of the next day. *)
Definition availableSince (subscriptionsDateUTC : string) : JSNumber.t :=
  JSNumber.add (JSDate.getTime (subscriptionsDateUTC +:+ "T00:00:00Z"))
    (JSNumber.Num (24 * 60 * 60 * 1000)).

(** [GetSubscriptionsFeedHandler(tableService, subscriptionsFeedTable)],
    applied to the user's attributes and to the date; [now] is the value of
    [Date.now()].  The first two arguments of the returned function are not
    used and are left out. *)
Definition GetSubscriptionsFeedHandler
    (tableService : TableService) (subscriptionsFeedTable : string)
    (now : Z) (userAttributes : IAzureUserAttributes)
    (subscriptionsDateUTC : string) : Async Response :=
  let availableSince := availableSince subscriptionsDateUTC in
  if JSNumber.lt (JSNumber.Num now) availableSince then
    resolve (ResponseErrorNotFound "Data not available yet"
      ("Subscription data for " +:+ subscriptionsDateUTC +:+
       " will be available from " +:+ JSDate.toUTCString availableSince))
  else
    let serviceId := serviceId (service userAttributes) in
    let pagedQuery := getPagedQuery tableService subscriptionsFeedTable in
    let profileSubscriptionsQuery :=
      pagedQuery (queryFilterForKey ("P-" +:+ subscriptionsDateUTC +:+ "-S")) in
    let serviceSubscriptionsQuery :=
      pagedQuery (queryFilterForKey
        ("S-" +:+ subscriptionsDateUTC +:+ "-" +:+ serviceId +:+ "-S")) in
    let serviceUnsubscriptionsQuery :=
      pagedQuery (queryFilterForKey
        ("S-" +:+ subscriptionsDateUTC +:+ "-" +:+ serviceId +:+ "-U")) in
    let_await profileSubscriptionsSet := queryUsers profileSubscriptionsQuery in
    let_await serviceSubscriptionsSet := queryUsers serviceSubscriptionsQuery in
    let_await serviceUnsubscriptionsSet :=
      queryUsers serviceUnsubscriptionsQuery in
    let '(subscriptions, unsubscriptions) :=
      reconcile profileSubscriptionsSet serviceSubscriptionsSet
        serviceUnsubscriptionsSet in
    let feedJson :=
      {| dateUTC := subscriptionsDateUTC;
         subscriptions := subscriptions;
         unsubscriptions := unsubscriptions |} in
    resolve (ResponseSuccessJson feedJson).

(** ** Calendar dates, to state what the handler's date means *)

Record CalendarDate := { year : Z; month : Z; day : Z }.

Definition DaysInMonth (y m : Z) : Z :=
  match m with
  | 1 | 3 | 5 | 7 | 8 | 10 | 12 => 31
  | 4 | 6 | 9 | 11 => 30
  | 2 => if JSDate.InLeapYear y then 29 else 28
  | _ => 0
  end.

(** A day of the calendar, with a year of four digits. *)
Definition validDate (D : CalendarDate) : bool :=
  (0 <=? year D) && (year D <=? 9999) && (1 <=? month D) && (month D <=? 12)
  && (1 <=? day D) && (day D <=? DaysInMonth (year D) (month D)).

(** The day after [D]. *)
Definition nextDay (D : CalendarDate) : CalendarDate :=
  if day D <? DaysInMonth (year D) (month D)
  then {| year := year D; month := month D; day := day D + 1 |}
  else if month D <? 12
  then {| year := year D; month := month D + 1; day := 1 |}
  else {| year := year D + 1; month := 1; day := 1 |}.

(** The time value of 00:00:00 UTC on [D]. *)
Definition midnightUTC (D : CalendarDate) : Z :=
  JSDate.MakeDate (JSDate.MakeDay (year D) (month D - 1) (day D)) 0.

(** [D] written [YYYY-MM-DD], the format of the handler's date. *)
Definition shortDate (D : CalendarDate) : string :=
  JSDate.pad4 (year D) +:+ "-" +:+ JSDate.pad2 (month D) +:+ "-"
  +:+ JSDate.pad2 (day D).

(** ** The partition keys of the data model, in the spec's words

    The template [{Prefix}-{Date}-{Scope}-{EventType}], a part that is
    absent being left out together with its dash.  This definition follows
    the spec, to be compared with the keys that the handler builds. *)
Inductive KeyPrefix := PrefixP | PrefixS.
Inductive EventType := EventS | EventU.

Definition spec_partitionKey (prefix : KeyPrefix) (date : string)
    (scope : option string) (eventType : option EventType) : string :=
  (match prefix with PrefixP => "P" | PrefixS => "S" end) +:+ "-" +:+ date
  +:+ (match scope with Some sc => "-" +:+ sc | None => "" end)
  +:+ (match eventType with
       | Some EventS => "-S"
       | Some EventU => "-U"
       | None => ""
       end).

(** The error of the first failed fetch of a scan, if one fails. *)
Fixpoint firstFailure (pages : list PageFetch) : option StoreQueryError :=
  match pages with
  | [] => None
  | PageFailure e :: _ => Some e
  | Page _ :: rest => firstFailure rest
  end.

(** The failure of the scan that the store answers to a partition key. *)
Definition scanFailure (tableService : TableService) (table key : string)
    : option StoreQueryError :=
  let pages := tableService table (queryFilterForKey key) in
  firstFailure (pages.1 :: pages.2).

(** The set that [queryUsers] resolves to for a partition key, or the error
    it rejects with. *)
Definition fetched (tableService : TableService) (table key : string)
    : Outcome JSSet.t :=
  (queryUsers (getPagedQuery tableService table (queryFilterForKey key)) []).1.

(** The number of fetches that the scan of [pages] makes: all of them, or
    those up to the first that fails. *)
Fixpoint fetches (pages : list PageFetch) : nat :=
  match pages with
  | [] => 0
  | PageFailure _ :: _ => 1
  | Page _ :: rest => S (fetches rest)
  end.

(** The round trips of [n] consecutive fetches, from page [token] on. *)
Definition roundTrips (table key : string) (token n : nat) : list StoreCall :=
  (λ i, {| call_table := table; call_partitionKey := key; call_page := i |})
    <$> seq token n.

(** The round trips of the whole scan for a partition key. *)
Definition scanRoundTrips (tableService : TableService) (table key : string)
    : list StoreCall :=
  let pages := tableService table (queryFilterForKey key) in
  roundTrips table key 0 (fetches (pages.1 :: pages.2)).

(** ** Example stores and requests *)

Definition exampleRecord (key user : string) : UserRecord :=
  {| partitionKey := key; rowKey := user; userIdentifier := user |}.

Definition exampleAttributes : IAzureUserAttributes :=
  {| service := {| serviceId := "svc" |} |}.

Definition May1st2021 : CalendarDate :=
  {| year := 2021; month := 5; day := 1 |}.

(** A store without any event: every scan is one empty page. *)
Definition emptyStore : TableService := λ _ _, (Page [], []).

(** A store whose scan of the subscribe events fails on its second page. *)
Definition failingStore : TableService := λ _ query,
  if String.eqb (partitionKeyEq query) "P-2021-05-01-S" then
    (Page [exampleRecord "P-2021-05-01-S" "a"], [])
  else if String.eqb (partitionKeyEq query) "S-2021-05-01-svc-S" then
    (Page [exampleRecord "S-2021-05-01-svc-S" "b"],
     [PageFailure {| message := "throttled" |};
      Page [exampleRecord "S-2021-05-01-svc-S" "c"]])
  else (Page [], []).

(** Two stores with the same events, paged and ordered differently, the
    second with a row twice. *)
Definition pagedStore1 : TableService := λ _ query,
  if String.eqb (partitionKeyEq query) "P-2021-05-01-S" then
    (Page [exampleRecord "P-2021-05-01-S" "a";
           exampleRecord "P-2021-05-01-S" "b"], [])
  else if String.eqb (partitionKeyEq query) "S-2021-05-01-svc-S" then
    (Page [exampleRecord "S-2021-05-01-svc-S" "b";
           exampleRecord "S-2021-05-01-svc-S" "c"], [])
  else if String.eqb (partitionKeyEq query) "S-2021-05-01-svc-U" then
    (Page [exampleRecord "S-2021-05-01-svc-U" "b";
           exampleRecord "S-2021-05-01-svc-U" "d"], [])
  else (Page [], []).

Definition pagedStore2 : TableService := λ _ query,
  if String.eqb (partitionKeyEq query) "P-2021-05-01-S" then
    (Page [exampleRecord "P-2021-05-01-S" "b"],
     [Page [exampleRecord "P-2021-05-01-S" "a"]])
  else if String.eqb (partitionKeyEq query) "S-2021-05-01-svc-S" then
    (Page [exampleRecord "S-2021-05-01-svc-S" "c"],
     [Page []; Page [exampleRecord "S-2021-05-01-svc-S" "b";
                     exampleRecord "S-2021-05-01-svc-S" "c"]])
  else if String.eqb (partitionKeyEq query) "S-2021-05-01-svc-U" then
    (Page [exampleRecord "S-2021-05-01-svc-U" "d";
           exampleRecord "S-2021-05-01-svc-U" "b"], [])
  else (Page [], []).

(** ** Runs that agree up to the order of the identifiers *)

(** Two scans end alike: with sets of the same members, or with the same
    error. *)
Definition sameUsers (o1 o2 : Outcome JSSet.t) : Prop :=
  match o1, o2 with
  | Resolved s1, Resolved s2 => JSSet.members s1 = JSSet.members s2
  | Rejected e1, Rejected e2 => e1 = e2
  | _, _ => False
  end.

(** Two runs of the handler end alike: with feeds of the same date and the
    same members in each array, with the same "not found" answer, or with
    the same error. *)
Definition sameFeed (o1 o2 : Outcome Response) : Prop :=
  match o1, o2 with
  | Resolved (ResponseSuccessJson f1), Resolved (ResponseSuccessJson f2) =>
      dateUTC f1 = dateUTC f2
      ∧ list_to_set (subscriptions f1)
        =@{gset string} list_to_set (subscriptions f2)
      ∧ list_to_set (unsubscriptions f1)
        =@{gset string} list_to_set (unsubscriptions f2)
  | Resolved (ResponseErrorNotFound t1 d1),
    Resolved (ResponseErrorNotFound t2 d2) => t1 = t2 ∧ d1 = d2
  | Rejected e1, Rejected e2 => e1 = e2
  | _, _ => False
  end.

(** ** The date parameter: [ShortDateString]

    [ShortDateString] refines [PatternString("\\d\\d\\d\\d-\\d\\d-\\d\\d")], a
    string in which the regular expression matches somewhere
    ([s.match(p) !== null]), by [!isNaN(new Date(s).getTime())]. *)

(** [\d]: a decimal digit. *)
Definition isDigit (c : ascii) : bool :=
  match JSDate.digit c with Some _ => true | None => false end.

(** The regular expression, matched at the start of [cs]. *)
Definition shortDatePatternAt (cs : list ascii) : bool :=
  match cs with
  | y1 :: y2 :: y3 :: y4 :: dash1 :: mo1 :: mo2 :: dash2 :: d1 :: d2 :: _ =>
      isDigit y1 && isDigit y2 && isDigit y3 && isDigit y4
      && Ascii.eqb dash1 "-" && isDigit mo1 && isDigit mo2
      && Ascii.eqb dash2 "-" && isDigit d1 && isDigit d2
  | _ => false
  end.

(** The regular expression, matched at some position of [cs]. *)
Fixpoint shortDatePatternIn (cs : list ascii) : bool :=
  shortDatePatternAt cs
  || match cs with
     | [] => false
     | _ :: rest => shortDatePatternIn rest
     end.

(** The characters of the date-only form [YYYY-MM-DD], read as the midnight
    UTC of that day; ranges as in [JSDate.parseISO]. *)
Definition parseISODate (cs : list ascii) : option Z :=
  match cs with
  | [y1; y2; y3; y4; dash1; mo1; mo2; dash2; d1; d2] =>
      if Ascii.eqb dash1 "-" && Ascii.eqb dash2 "-" then
        year ← JSDate.number [y1; y2; y3; y4];
        month ← JSDate.number [mo1; mo2];
        day ← JSDate.number [d1; d2];
        if (1 <=? month) && (month <=? 12) && (1 <=? day) && (day <=? 31)
        then Some (JSDate.MakeDate (JSDate.MakeDay year (month - 1) day) 0)
        else None
      else None
  | _ => None
  end.

(** [new Date(s).getTime()] for [s] in the date-only form or in the form of
    [JSDate.getTime].  Any other string is outside this model and is read as
    an invalid date, although the runtime parses more (expanded years,
    legacy formats). *)
Definition newDate_getTime (s : string) : JSNumber.t :=
  match parseISODate (list_ascii_of_string s) with
  | Some t => JSNumber.Num t
  | None => JSDate.getTime s
  end.

Definition isNaN (n : JSNumber.t) : bool :=
  match n with JSNumber.NaN => true | JSNumber.Num _ => false end.

(** Whether [ShortDateString] accepts the string [s]: exact on the strings
    of the two forms of [newDate_getTime]; the runtime accepts further
    strings, which this definition refuses. *)
Definition ShortDateString (s : string) : bool :=
  shortDatePatternIn (list_ascii_of_string s)
  && negb (isNaN (newDate_getTime s)).

(** ** The activity that updates the status of a notification
    (NotificationStatusUpdaterActivity/handler.ts) *)
Module Activity.

(** [INotificationStatusUpdaterResult]. *)
Inductive INotificationStatusUpdaterResult := SUCCESS | FAILURE.

(** The decoded [NotificationStatusUpdaterActivityInput]. *)
Record ActivityInput (Channel StatusValue : Type) :=
  { channel : Channel;
    messageId : string;
    notificationId : string;
    status : StatusValue }.
Arguments channel {Channel StatusValue} _.
Arguments messageId {Channel StatusValue} _.
Arguments notificationId {Channel StatusValue} _.
Arguments status {Channel StatusValue} _.

(** An awaited promise, settled: fulfilled with a value or rejected with a
    reason. *)
Inductive Settled (Reason A : Type) :=
| Fulfilled (a : A)
| RejectedWith (reason : Reason).
Arguments Fulfilled {Reason A} a.
Arguments RejectedWith {Reason A} reason.

(** What the handler takes from its libraries: the types of the values, the
    io-ts decoder of the input and the reporter of its errors, the updater
    of io-functions-commons with how its promise settles (fulfilled with an
    error or an updated status, or rejected), and how a channel, a status
    and an error are written in a template string. *)
Record Collaborators :=
  { Unknown : Type;
    Channel : Type;
    StatusValue : Type;
    Errors : Type;
    UpdateError : Type;
    NotificationStatus : Type;
    NotificationStatusModel : Type;
    Rejection : Type;
    decode : Unknown → Errors + ActivityInput Channel StatusValue;
    report : Errors → list string;
    getNotificationStatusUpdater :
      NotificationStatusModel → Channel → string → string → StatusValue →
      Settled Rejection (UpdateError + NotificationStatus);
    showChannel : Channel → string;
    showStatus : StatusValue → string;
    showError : UpdateError → string;
    errorMessage : UpdateError → string }.

(** What an invocation does besides returning: the entries it logs and the
    update it asks for. *)
Inductive Effect (C : Collaborators) :=
| LogError (entry : string)
| LogWarn (entry : string)
| LogVerbose (entry : string)
| UpdateStatus (model : NotificationStatusModel C) (ch : Channel C)
    (message notification : string) (st : StatusValue C).
Arguments LogError {C} entry.
Arguments LogWarn {C} entry.
Arguments LogVerbose {C} entry.
Arguments UpdateStatus {C} model ch message notification st.

(** The end of an invocation: a result, [throw new Error(message)], or the
    rejection of the awaited updater, which the handler does not catch. *)
Inductive Completion (C : Collaborators) :=
| Returned (result : INotificationStatusUpdaterResult)
| Thrown (message : string)
| Rejects (reason : Rejection C).
Arguments Returned {C} result.
Arguments Thrown {C} message.
Arguments Rejects {C} reason.

(** [getNotificationStatusUpdaterActivityHandler(lNotificationStatusModel)]
    applied to an input (the context is used for its log only): how the
    invocation ends, and its effects in the order they happen. *)
Definition getNotificationStatusUpdaterActivityHandler (C : Collaborators)
    (lNotificationStatusModel : NotificationStatusModel C)
    (input : Unknown C) : Completion C * list (Effect C) :=
  let decodedInput := decode C input in
  match decodedInput with
  | inl errors =>
      (Returned FAILURE,
       [LogError
          ("NotificationStatusUpdaterActivity|Cannot decode input|ERROR="
           +:+ String.concat " / " (report C errors))])
  | inr value =>
      let channel := channel value in
      let notificationId := notificationId value in
      let messageId := messageId value in
      let status := status value in
      let notificationStatusUpdater :=
        getNotificationStatusUpdater C lNotificationStatusModel channel
          messageId notificationId in
      let update :=
        UpdateStatus lNotificationStatusModel channel messageId
          notificationId status in
      match notificationStatusUpdater status with
      | RejectedWith reason => (Rejects reason, [update])
      | Fulfilled errorOrUpdatedNotificationStatus =>
          match errorOrUpdatedNotificationStatus with
          | inl error =>
              (Thrown (errorMessage C error),
               [update;
                LogWarn
                  ("NotificationStatusUpdaterActivity|MESSAGE_ID="
                   +:+ messageId
                   +:+ "|NOTIFICATION_ID=" +:+ notificationId
                   +:+ "|CHANNEL=" +:+ showChannel C channel
                   +:+ "|STATUS=" +:+ showStatus C status
                   +:+ "|ERROR=" +:+ showError C error)])
          | inr _ =>
              (Returned SUCCESS,
               [update;
                LogVerbose
                  ("NotificationStatusUpdaterActivity|MESSAGE_ID="
                   +:+ messageId
                   +:+ "|NOTIFICATION_ID=" +:+ notificationId
                   +:+ "|CHANNEL=" +:+ showChannel C channel
                   +:+ "|STATUS=" +:+ showStatus C status
                   +:+ "|RESULT=SUCCESS")])
          end
      end
  end.

(** The updates that an invocation asked for. *)
Definition updates {C : Collaborators} (effects : list (Effect C))
    : list (Effect C) :=
  List.filter (λ e, match e with UpdateStatus _ _ _ _ _ => true | _ => false end)
    effects.

(** The entries that an invocation logged. *)
Definition logged {C : Collaborators} (effects : list (Effect C))
    : list (Effect C) :=
  List.filter (λ e, match e with UpdateStatus _ _ _ _ _ => false | _ => true end)
    effects.

(** An example: inputs are optional pairs of message and notification
    identifiers, the channel is EMAIL, the update of the notification [lost]
    fails and that of the notification [down] rejects. *)
Definition exampleCollaborators : Collaborators :=
  {| Unknown := option (string * string);
     Channel := unit;
     StatusValue := unit;
     Errors := string;
     UpdateError := string;
     NotificationStatus := unit;
     NotificationStatusModel := unit;
     Rejection := string;
     decode := λ input,
       match input with
       | Some (message, notification) =>
           inr {| channel := (); messageId := message;
                  notificationId := notification; status := () |}
       | None => inl "value is undefined"
       end;
     report := λ errors, [errors];
     getNotificationStatusUpdater := λ _ _ _ notification _,
       if String.eqb notification "lost" then Fulfilled (inl "not found")
       else if String.eqb notification "down" then RejectedWith "ECONNRESET"
       else Fulfilled (inr ());
     showChannel := λ _, "EMAIL";
     showStatus := λ _, "SENT";
     showError := λ e, "Error: " +:+ e;
     errorMessage := λ e, e |}.

End Activity.

(** ** Properties of [JSSet] and of the [forEach]/[push] loops *)

Section PushLoop.

Context (keep : string → bool).

(** One [forEach] of the handler: push the values that pass [keep]. *)
Definition push_if (arr : list string) (x : string) : list string :=
  if keep x then push arr x else arr.

Lemma foldl_push_if (l arr : list string) :
  foldl push_if arr l = arr ++ List.filter keep l.
Proof.
  revert arr. induction l as [|x l IH]; intros arr; simpl.
  - by rewrite app_nil_r.
  - rewrite IH. unfold push_if, push. destruct (keep x); [|done].
    by rewrite <- app_assoc.
Qed.

Lemma elem_of_List_filter (l : list string) (x : string) :
  x ∈ List.filter keep l ↔ x ∈ l ∧ keep x = true.
Proof.
  rewrite !list_elem_of_In, filter_In. tauto.
Qed.

Lemma NoDup_List_filter (l : list string) :
  NoDup l → NoDup (List.filter keep l).
Proof. rewrite !NoDup_ListNoDup. apply List.NoDup_filter. Qed.

End PushLoop.

Lemma JSSet_has_true (s : JSSet.t) (x : string) :
  JSSet.has s x = true ↔ x ∈ JSSet.values s.
Proof. unfold JSSet.has. apply bool_decide_eq_true. Qed.

Lemma JSSet_has_false (s : JSSet.t) (x : string) :
  negb (JSSet.has s x) = true ↔ x ∉ JSSet.values s.
Proof.
  rewrite negb_true_iff. unfold JSSet.has. apply bool_decide_eq_false.
Qed.

Lemma elem_of_members (s : JSSet.t) (x : string) :
  x ∈ JSSet.members s ↔ x ∈ JSSet.values s.
Proof. unfold JSSet.members. apply elem_of_list_to_set. Qed.

(** The two arrays as filters of the sets' values. *)
Lemma reconcile_filters (ps ss us : JSSet.t) :
  reconcile ps ss us =
    (List.filter (λ x, negb (JSSet.has us x)) (JSSet.values ps) ++
     List.filter (λ x, negb (JSSet.has ps x)) (JSSet.values ss),
     List.filter (λ x, negb (JSSet.has ps x)) (JSSet.values us)).
Proof.
  transitivity
    (foldl (push_if (λ x, negb (JSSet.has ps x)))
       (foldl (push_if (λ x, negb (JSSet.has us x))) [] (JSSet.values ps))
       (JSSet.values ss),
     foldl (push_if (λ x, negb (JSSet.has ps x))) [] (JSSet.values us));
    [reflexivity|].
  by rewrite !foldl_push_if.
Qed.

Lemma elem_of_subscriptions (ps ss us : JSSet.t) (x : string) :
  x ∈ (reconcile ps ss us).1 ↔
    (x ∈ JSSet.values ps ∧ x ∉ JSSet.values us) ∨
    (x ∈ JSSet.values ss ∧ x ∉ JSSet.values ps).
Proof.
  rewrite reconcile_filters. simpl.
  rewrite elem_of_app, !elem_of_List_filter, !JSSet_has_false. done.
Qed.

Lemma elem_of_unsubscriptions (ps ss us : JSSet.t) (x : string) :
  x ∈ (reconcile ps ss us).2 ↔ x ∈ JSSet.values us ∧ x ∉ JSSet.values ps.
Proof.
  rewrite reconcile_filters. simpl.
  rewrite elem_of_List_filter, JSSet_has_false. done.
Qed.

(** ** Dates: parsing and the day after *)

Lemma digit_digitChar (k : Z) :
  0 <= k <= 9 → JSDate.digit (JSDate.digitChar k) = Some k.
Proof.
  intros Hk.
  assert (k = 0 ∨ k = 1 ∨ k = 2 ∨ k = 3 ∨ k = 4 ∨ k = 5 ∨ k = 6 ∨ k = 7
          ∨ k = 8 ∨ k = 9) as Hcases by lia.
  repeat (destruct Hcases as [-> | Hcases]; [reflexivity|]).
  by subst.
Qed.

Lemma number_2 (a b : Z) :
  0 <= a <= 9 → 0 <= b <= 9 →
  JSDate.number [JSDate.digitChar a; JSDate.digitChar b] = Some (10 * a + b).
Proof.
  intros Ha Hb. unfold JSDate.number. cbn [foldl].
  rewrite !digit_digitChar by done. cbn [mbind option_bind]. f_equal; lia.
Qed.

Lemma number_4 (a b c d : Z) :
  0 <= a <= 9 → 0 <= b <= 9 → 0 <= c <= 9 → 0 <= d <= 9 →
  JSDate.number [JSDate.digitChar a; JSDate.digitChar b;
                 JSDate.digitChar c; JSDate.digitChar d]
  = Some (1000 * a + 100 * b + 10 * c + d).
Proof.
  intros Ha Hb Hc Hd. unfold JSDate.number. cbn [foldl].
  rewrite !digit_digitChar by done. cbn [mbind option_bind]. f_equal; lia.
Qed.

(** The handler's string for a date parses to the midnight of that date. *)
Lemma getTime_shortDate (D : CalendarDate) :
  0 <= year D <= 9999 → 1 <= month D <= 12 → 1 <= day D <= 31 →
  JSDate.getTime (shortDate D +:+ "T00:00:00Z") = JSNumber.Num (midnightUTC D).
Proof.
  intros Hy Hm Hd. unfold JSDate.getTime, shortDate, JSDate.pad4, JSDate.pad2.
  lazy [String.append list_ascii_of_string JSDate.parseISO].
  cbn [Ascii.eqb Bool.eqb andb].
  rewrite number_4, !number_2 by (Z.div_mod_to_equations; lia).
  change (JSDate.number ["0"%char; "0"%char]) with (Some 0).
  cbn [mbind option_bind].
  replace (1000 * (year D `div` 1000) + 100 * ((year D `div` 100) `mod` 10)
           + 10 * ((year D `mod` 100) `div` 10) + (year D `mod` 100) `mod` 10)
    with (year D) by (Z.div_mod_to_equations; lia).
  replace (10 * (month D `div` 10) + month D `mod` 10) with (month D)
    by (Z.div_mod_to_equations; lia).
  replace (10 * (day D `div` 10) + day D `mod` 10) with (day D)
    by (Z.div_mod_to_equations; lia).
  replace ((1 <=? month D) && (month D <=? 12) && (1 <=? day D)
           && (day D <=? 31)) with true by (symmetry; repeat (apply andb_true_intro; split); lia).
  reflexivity.
Qed.

Lemma validDate_bounds (D : CalendarDate) :
  validDate D = true →
  0 <= year D <= 9999 ∧ 1 <= month D <= 12
  ∧ 1 <= day D <= DaysInMonth (year D) (month D).
Proof. unfold validDate. rewrite !andb_true_iff, !Z.leb_le. lia. Qed.

Lemma DaysInMonth_le_31 (y m : Z) : DaysInMonth y m <= 31.
Proof.
  unfold DaysInMonth.
  repeat match goal with
         | |- context [match ?p with _ => _ end] => destruct p
         end; lia.
Qed.

(** A year has 365 days, and one more when it is a leap year. *)
Lemma DayFromYear_succ (y : Z) :
  JSDate.DayFromYear (y + 1)
  = JSDate.DayFromYear y + 365 + (if JSDate.InLeapYear y then 1 else 0).
Proof.
  unfold JSDate.DayFromYear, JSDate.InLeapYear.
  destruct (Z.eqb_spec (y mod 4) 0), (Z.eqb_spec (y mod 100) 0),
    (Z.eqb_spec (y mod 400) 0); cbn [andb orb negb];
    Z.div_mod_to_equations; lia.
Qed.

(** The first day of a month comes right after the last day of the month
    before. *)
Lemma MonthStart_succ (y m : Z) :
  1 <= m <= 11 →
  JSDate.MonthStart (JSDate.InLeapYear y) m
  = JSDate.MonthStart (JSDate.InLeapYear y) (m - 1) + DaysInMonth y m.
Proof.
  intros Hm.
  assert (m = 1 ∨ m = 2 ∨ m = 3 ∨ m = 4 ∨ m = 5 ∨ m = 6 ∨ m = 7 ∨ m = 8
          ∨ m = 9 ∨ m = 10 ∨ m = 11) as Hcases by lia.
  unfold DaysInMonth.
  repeat (destruct Hcases as [-> | Hcases];
          [destruct (JSDate.InLeapYear y); reflexivity|]).
  subst. destruct (JSDate.InLeapYear y); reflexivity.
Qed.

Lemma MakeDay_in_year (y m d : Z) :
  0 <= m <= 11 →
  JSDate.MakeDay y m d
  = JSDate.DayFromYear y + JSDate.MonthStart (JSDate.InLeapYear y) m + d - 1.
Proof.
  intros Hm. unfold JSDate.MakeDay.
  rewrite Z.div_small, Z.mod_small, Z.add_0_r by lia. done.
Qed.

(** The day number of the day after [D] is one more than that of [D]. *)
Lemma MakeDay_nextDay (D : CalendarDate) :
  validDate D = true →
  JSDate.MakeDay (year (nextDay D)) (month (nextDay D) - 1) (day (nextDay D))
  = JSDate.MakeDay (year D) (month D - 1) (day D) + 1.
Proof.
  intros HD. apply validDate_bounds in HD as (Hy & Hm & Hd).
  unfold nextDay.
  destruct (Z.ltb_spec (day D) (DaysInMonth (year D) (month D))) as [Hlt|Hge];
    [|destruct (Z.ltb_spec (month D) 12) as [Hm12|Hm12]]; cbn [year month day].
  - rewrite !MakeDay_in_year by lia. lia.
  - rewrite !MakeDay_in_year by lia.
    replace (month D + 1 - 1) with (month D) by lia.
    rewrite (MonthStart_succ (year D) (month D)) by lia. lia.
  - assert (month D = 12) as Hm' by lia.
    rewrite !MakeDay_in_year by lia. rewrite DayFromYear_succ.
    rewrite Hm' in *. change (DaysInMonth (year D) 12) with 31 in *.
    change (12 - 1) with 11. change (1 - 1) with 0.
    destruct (JSDate.InLeapYear (year D)), (JSDate.InLeapYear (year D + 1));
      cbn [JSDate.MonthStart]; lia.
Qed.

(** Twenty-four hours after the midnight of [D] is the midnight of the day
    after. *)
Lemma midnightUTC_nextDay (D : CalendarDate) :
  validDate D = true →
  midnightUTC (nextDay D) = midnightUTC D + 24 * 60 * 60 * 1000.
Proof.
  intros HD. unfold midnightUTC, JSDate.MakeDate, JSDate.msPerDay.
  rewrite MakeDay_nextDay by done. lia.
Qed.

(** *** The calendar date of a day number

    [JSDate.civil] inverts [JSDate.MakeDay]: checked on the 400 years from 0
    by evaluation, and carried to every year by the period of the calendar,
    400 years of 146097 days. *)

Lemma civil_MakeDay_checked :
  forallb (λ y,
    forallb (λ m,
      forallb (λ d,
        (DaysInMonth y m <? d)
        || (let '(y', m', d') := JSDate.civil (JSDate.MakeDay y (m - 1) d) in
            (y' =? y) && (m' =? m - 1) && (d' =? d)))
        (seqZ 1 31))
      (seqZ 1 12))
    (seqZ 0 400) = true.
Proof. vm_compute. reflexivity. Qed.

Lemma DaysInMonth_ge_28 (y m : Z) : 1 <= m <= 12 → 28 <= DaysInMonth y m.
Proof.
  intros Hm.
  assert (m = 1 ∨ m = 2 ∨ m = 3 ∨ m = 4 ∨ m = 5 ∨ m = 6 ∨ m = 7 ∨ m = 8
          ∨ m = 9 ∨ m = 10 ∨ m = 11 ∨ m = 12) as Hcases by lia.
  unfold DaysInMonth.
  repeat (destruct Hcases as [-> | Hcases];
          [destruct (JSDate.InLeapYear y); lia|]).
  subst. lia.
Qed.

Lemma forallb_seqZ (f : Z → bool) (a n x : Z) :
  forallb f (seqZ a n) = true → a <= x < a + n → f x = true.
Proof.
  intros Hall Hx. rewrite forallb_forall in Hall.
  apply Hall, list_elem_of_In, elem_of_seqZ. done.
Qed.

Lemma civil_MakeDay_first_era (y m d : Z) :
  0 <= y < 400 → 1 <= m <= 12 → 1 <= d <= DaysInMonth y m →
  JSDate.civil (JSDate.MakeDay y (m - 1) d) = (y, m - 1, d).
Proof.
  intros Hy Hm Hd. pose proof (DaysInMonth_le_31 y m) as Hdim.
  pose proof (forallb_seqZ _ 0 400 y civil_MakeDay_checked Hy) as Hyear.
  pose proof (forallb_seqZ _ 1 12 m Hyear ltac:(lia)) as Hmonth.
  pose proof (forallb_seqZ _ 1 31 d Hmonth ltac:(lia)) as Hday.
  cbv beta in Hday.
  apply orb_true_iff in Hday as [Hday | Hday]; [lia|].
  destruct (JSDate.civil (JSDate.MakeDay y (m - 1) d)) as [[y' m'] d'].
  rewrite !andb_true_iff, !Z.eqb_eq in Hday.
  destruct Hday as [[-> ->] ->]. done.
Qed.

Lemma InLeapYear_era (y k : Z) :
  JSDate.InLeapYear (y + 400 * k) = JSDate.InLeapYear y.
Proof.
  unfold JSDate.InLeapYear.
  replace ((y + 400 * k) mod 4) with (y mod 4)
    by (Z.div_mod_to_equations; lia).
  replace ((y + 400 * k) mod 100) with (y mod 100)
    by (Z.div_mod_to_equations; lia).
  replace ((y + 400 * k) mod 400) with (y mod 400)
    by (Z.div_mod_to_equations; lia).
  done.
Qed.

Lemma DaysInMonth_era (y k m : Z) :
  DaysInMonth (y + 400 * k) m = DaysInMonth y m.
Proof. unfold DaysInMonth. by rewrite InLeapYear_era. Qed.

Lemma MakeDay_era (y k m d : Z) :
  0 <= m <= 11 →
  JSDate.MakeDay (y + 400 * k) m d = JSDate.MakeDay y m d + 146097 * k.
Proof.
  intros Hm. rewrite !MakeDay_in_year by done. rewrite InLeapYear_era.
  unfold JSDate.DayFromYear. Z.div_mod_to_equations. lia.
Qed.

Lemma civil_era (n k : Z) :
  JSDate.civil (n + 146097 * k)
  = ((JSDate.civil n).1.1 + 400 * k, (JSDate.civil n).1.2, (JSDate.civil n).2).
Proof.
  unfold JSDate.civil. cbv zeta.
  replace ((n + 146097 * k + 719468) `div` 146097)
    with ((n + 719468) `div` 146097 + k) by (Z.div_mod_to_equations; lia).
  replace (n + 146097 * k + 719468 - ((n + 719468) `div` 146097 + k) * 146097)
    with (n + 719468 - (n + 719468) `div` 146097 * 146097) by lia.
  cbn [fst snd]. f_equal. f_equal. lia.
Qed.

(** The date of the day number of a date is that date. *)
Lemma civil_MakeDay (y m d : Z) :
  1 <= m <= 12 → 1 <= d <= DaysInMonth y m →
  JSDate.civil (JSDate.MakeDay y (m - 1) d) = (y, m - 1, d).
Proof.
  intros Hm Hd.
  assert (y = y mod 400 + 400 * (y / 400)) as Hy
    by (Z.div_mod_to_equations; lia).
  rewrite Hy at 1. rewrite MakeDay_era, civil_era by lia.
  rewrite civil_MakeDay_first_era.
  - cbn [fst snd]. by rewrite <- Hy.
  - Z.div_mod_to_equations; lia.
  - done.
  - rewrite Hy in Hd. by rewrite DaysInMonth_era in Hd.
Qed.

Lemma nextDay_in_month (D : CalendarDate) :
  validDate D = true →
  1 <= month (nextDay D) <= 12
  ∧ 1 <= day (nextDay D)
         <= DaysInMonth (year (nextDay D)) (month (nextDay D)).
Proof.
  intros HD. apply validDate_bounds in HD as (Hy & Hm & Hd).
  unfold nextDay.
  destruct (Z.ltb_spec (day D) (DaysInMonth (year D) (month D))) as [Hlt|Hge];
    [|destruct (Z.ltb_spec (month D) 12) as [Hm12|Hm12]]; cbn [year month day].
  - lia.
  - pose proof (DaysInMonth_ge_28 (year D) (month D + 1)). lia.
  - change (DaysInMonth (year D + 1) 1) with 31. lia.
Qed.

(** The string of the midnight of a date: its week day, day, month and
    year, at 00:00:00. *)
Lemma toUTCString_midnightUTC (D : CalendarDate) :
  1 <= month D <= 12 → 1 <= day D <= DaysInMonth (year D) (month D) →
  JSDate.toUTCString (JSNumber.Num (midnightUTC D))
  = JSDate.dayName (JSDate.WeekDay (midnightUTC D)) +:+ ", "
    +:+ JSDate.pad2 (day D) +:+ " " +:+ JSDate.monthName (month D - 1) +:+ " "
    +:+ JSDate.paddedYear (year D) +:+ " 00:00:00 GMT".
Proof.
  intros Hm Hd. unfold JSDate.toUTCString.
  unfold JSDate.YearFromTime, JSDate.MonthFromTime, JSDate.DateFromTime.
  assert (JSDate.Day (midnightUTC D)
          = JSDate.MakeDay (year D) (month D - 1) (day D)) as ->.
  { unfold JSDate.Day, midnightUTC, JSDate.MakeDate, JSDate.msPerDay.
    Z.div_mod_to_equations. lia. }
  rewrite civil_MakeDay by done. cbn [fst snd].
  assert (JSDate.HourFromTime (midnightUTC D) = 0) as ->.
  { unfold JSDate.HourFromTime, midnightUTC, JSDate.MakeDate,
      JSDate.msPerDay, JSDate.msPerHour. Z.div_mod_to_equations. lia. }
  assert (JSDate.MinFromTime (midnightUTC D) = 0) as ->.
  { unfold JSDate.MinFromTime, midnightUTC, JSDate.MakeDate,
      JSDate.msPerDay, JSDate.msPerMinute. Z.div_mod_to_equations. lia. }
  assert (JSDate.SecFromTime (midnightUTC D) = 0) as ->.
  { unfold JSDate.SecFromTime, midnightUTC, JSDate.MakeDate,
      JSDate.msPerDay, JSDate.msPerSecond. Z.div_mod_to_equations. lia. }
  reflexivity.
Qed.

(** The handler's [availableSince] for the date [D]. *)
Lemma availableSince_shortDate (D : CalendarDate) :
  validDate D = true →
  availableSince (shortDate D) = JSNumber.Num (midnightUTC (nextDay D)).
Proof.
  intros HD. pose proof (validDate_bounds D HD) as (Hy & Hm & Hd).
  pose proof (DaysInMonth_le_31 (year D) (month D)).
  unfold availableSince. rewrite getTime_shortDate by lia.
  cbn [JSNumber.add]. by rewrite midnightUTC_nextDay.
Qed.

(** ** Scans: outcome and round trips *)

Lemma scanPages_run (table key : string) (pages : list PageFetch) :
  ∀ (token : nat) (entries : JSSet.t) (calls : list StoreCall),
    scanPages table key token pages entries calls
    = ((scanPages table key token pages entries []).1,
       calls ++ roundTrips table key token (fetches pages)).
Proof.
  induction pages as [|fetch rest IH]; intros token entries calls.
  - cbn. by rewrite app_nil_r.
  - cbn [scanPages]. unfold await, roundTrip. destruct fetch as [records|e].
    + rewrite IH. rewrite (IH _ _ ([] ++ _)). cbn [fst snd fetches].
      unfold roundTrips. cbn [seq fmap list_fmap]. by rewrite <- app_assoc.
    + unfold reject. cbn [fst snd fetches]. done.
Qed.

Lemma scanPages_outcome (table key : string) (pages : list PageFetch) :
  ∀ (token : nat) (entries : JSSet.t),
    (scanPages table key token pages entries []).1
    = match firstFailure pages with
      | Some e => Rejected e
      | None =>
          Resolved (foldl (λ entries r, JSSet.add entries (userIdentifier r))
                      entries (concat ((λ fetch,
                         match fetch with
                         | Page records => records
                         | PageFailure _ => []
                         end) <$> pages)))
      end.
Proof.
  induction pages as [|fetch rest IH]; intros token entries; [done|].
  cbn [scanPages]. unfold await, roundTrip. destruct fetch as [records|e].
  - rewrite scanPages_run. cbn [fst firstFailure]. rewrite IH.
    destruct (firstFailure rest); [done|].
    cbn [fmap list_fmap concat]. by rewrite foldl_app.
  - done.
Qed.

Lemma queryUsers_run (tableService : TableService) (table key : string)
    (calls : list StoreCall) :
  queryUsers (getPagedQuery tableService table (queryFilterForKey key)) calls
  = (fetched tableService table key,
     calls ++ scanRoundTrips tableService table key).
Proof.
  unfold fetched, queryUsers, scanRoundTrips. cbn [pq_table pq_query pq_pages
    getPagedQuery queryFilterForKey partitionKeyEq].
  apply scanPages_run.
Qed.

Lemma fetched_rejected (tableService : TableService) (table key : string)
    (e : StoreQueryError) :
  fetched tableService table key = Rejected e
  ↔ scanFailure tableService table key = Some e.
Proof.
  unfold fetched, queryUsers, scanFailure. cbn [pq_table pq_query pq_pages
    getPagedQuery queryFilterForKey partitionKeyEq].
  rewrite scanPages_outcome.
  destruct (firstFailure _); split; intros H; by inversion H.
Qed.

Lemma scanRoundTrips_keys (tableService : TableService) (table key : string) :
  ∃ n : nat, (0 < n)%nat
    ∧ call_partitionKey <$> scanRoundTrips tableService table key
      = replicate n key.
Proof.
  unfold scanRoundTrips, roundTrips.
  set (pages := tableService table (queryFilterForKey key)).
  exists (fetches (pages.1 :: pages.2)). split.
  - cbn [fetches]. destruct (pages.1); lia.
  - generalize (fetches (pages.1 :: pages.2)) as n. generalize 0%nat as t.
    intros t n. revert t. induction n as [|n IH]; intros t; [done|].
    cbn. f_equal. apply IH.
Qed.

(** ** The two paths of the handler *)

Lemma handler_not_yet_available (tableService : TableService) (table : string)
    (now : Z) (attrs : IAzureUserAttributes) (date : string)
    (calls : list StoreCall) :
  JSNumber.lt (JSNumber.Num now) (availableSince date) = true →
  GetSubscriptionsFeedHandler tableService table now attrs date calls
  = (Resolved (ResponseErrorNotFound "Data not available yet"
       ("Subscription data for " +:+ date +:+ " will be available from "
        +:+ JSDate.toUTCString (availableSince date))), calls).
Proof. intros Hlt. unfold GetSubscriptionsFeedHandler. by rewrite Hlt. Qed.

Lemma handler_available (tableService : TableService) (table : string)
    (now : Z) (attrs : IAzureUserAttributes) (date : string)
    (calls : list StoreCall) :
  JSNumber.lt (JSNumber.Num now) (availableSince date) = false →
  let sid := serviceId (service attrs) in
  let kP := "P-" +:+ date +:+ "-S" in
  let kS := "S-" +:+ date +:+ "-" +:+ sid +:+ "-S" in
  let kU := "S-" +:+ date +:+ "-" +:+ sid +:+ "-U" in
  let tripsP := scanRoundTrips tableService table kP in
  let tripsS := scanRoundTrips tableService table kS in
  let tripsU := scanRoundTrips tableService table kU in
  GetSubscriptionsFeedHandler tableService table now attrs date calls
  = match fetched tableService table kP with
    | Rejected e => (Rejected e, calls ++ tripsP)
    | Resolved ps =>
        match fetched tableService table kS with
        | Rejected e => (Rejected e, calls ++ tripsP ++ tripsS)
        | Resolved ss =>
            match fetched tableService table kU with
            | Rejected e => (Rejected e, calls ++ tripsP ++ tripsS ++ tripsU)
            | Resolved us =>
                (Resolved (ResponseSuccessJson
                   {| dateUTC := date;
                      subscriptions := (reconcile ps ss us).1;
                      unsubscriptions := (reconcile ps ss us).2 |}),
                 calls ++ tripsP ++ tripsS ++ tripsU)
            end
        end
    end.
Proof.
  intros Hlt sid kP kS kU tripsP tripsS tripsU.
  unfold GetSubscriptionsFeedHandler. rewrite Hlt. unfold await.
  rewrite queryUsers_run. fold sid kP kS kU tripsP.
  destruct (fetched tableService table kP) as [ps|e]; [|done].
  rewrite queryUsers_run. fold tripsS.
  destruct (fetched tableService table kS) as [ss|e];
    [|by rewrite <- app_assoc].
  rewrite queryUsers_run. fold tripsU.
  destruct (fetched tableService table kU) as [us|e];
    [|by rewrite <- !app_assoc].
  destruct (reconcile ps ss us) as [subs unsubs]. unfold resolve.
  by rewrite <- !app_assoc.
Qed.

(** ** The feed as sets *)

Lemma subscriptions_members (ps ss us : JSSet.t) :
  list_to_set (reconcile ps ss us).1
  =@{gset string} (JSSet.members ps ∖ JSSet.members us)
                  ∪ (JSSet.members ss ∖ JSSet.members ps).
Proof.
  apply set_eq. intros x.
  rewrite elem_of_list_to_set, elem_of_subscriptions.
  rewrite elem_of_union, !elem_of_difference, !elem_of_members. done.
Qed.

Lemma unsubscriptions_members (ps ss us : JSSet.t) :
  list_to_set (reconcile ps ss us).2
  =@{gset string} JSSet.members us ∖ JSSet.members ps.
Proof.
  apply set_eq. intros x.
  rewrite elem_of_list_to_set, elem_of_unsubscriptions.
  rewrite elem_of_difference, !elem_of_members. done.
Qed.

(** C1. For every three input sets, the subscriptions array holds exactly
    the members of (ProfileSet minus UnsubSet) ∪ (SubSet minus ProfileSet)
    and the unsubscriptions array exactly those of UnsubSet minus
    ProfileSet; for ProfileSet = {a,b}, SubSet = {b,c}, UnsubSet = {b} the
    arrays are [a; c] and the empty one. *)
Theorem reconcile_set_algebra :
  (∀ ps ss us : JSSet.t,
      list_to_set (reconcile ps ss us).1
      =@{gset string} (JSSet.members ps ∖ JSSet.members us)
                      ∪ (JSSet.members ss ∖ JSSet.members ps)
      ∧ list_to_set (reconcile ps ss us).2
        =@{gset string} JSSet.members us ∖ JSSet.members ps)
  ∧ reconcile (JSSet.of_list ["a"; "b"]) (JSSet.of_list ["b"; "c"])
      (JSSet.of_list ["b"])
    = (["a"; "c"], []).
Proof.
  split; [|reflexivity].
  intros ps ss us. split.
  - apply subscriptions_members.
  - apply unsubscriptions_members.
Qed.

(** The identifiers reported both as subscribed and as unsubscribed are
    those of SubSet ∩ UnsubSet outside ProfileSet. *)
Lemma subscriptions_unsubscriptions_common (ps ss us : JSSet.t) :
  list_to_set (reconcile ps ss us).1 ∩ list_to_set (reconcile ps ss us).2
  =@{gset string} (JSSet.members ss ∩ JSSet.members us) ∖ JSSet.members ps.
Proof.
  apply set_eq. intros x.
  rewrite elem_of_intersection, !elem_of_list_to_set.
  rewrite elem_of_subscriptions, elem_of_unsubscriptions.
  rewrite elem_of_difference, elem_of_intersection, !elem_of_members.
  tauto.
Qed.

(** C2, as stated, fails: with an empty ProfileSet and x in both SubSet and
    UnsubSet, x is in both outputs, so their intersection is {x}, not ∅. *)
Lemma subscriptions_unsubscriptions_overlap :
  list_to_set (reconcile JSSet.empty (JSSet.of_list ["x"])
                 (JSSet.of_list ["x"])).1
  ∩ list_to_set (reconcile JSSet.empty (JSSet.of_list ["x"])
                   (JSSet.of_list ["x"])).2
  =@{gset string} {["x"]}.
Proof.
  rewrite subscriptions_unsubscriptions_common. apply set_eq. intros x.
  rewrite elem_of_difference, elem_of_intersection, !elem_of_members.
  change (JSSet.values (JSSet.of_list ["x"])) with ["x"].
  change (JSSet.values JSSet.empty) with (@nil string).
  rewrite list_elem_of_singleton, elem_of_singleton, elem_of_nil. tauto.
Qed.

(** C2, amended. For every three input sets, the identifiers common to the
    subscriptions and the unsubscriptions outputs are exactly those of
    (SubSet ∩ UnsubSet) minus ProfileSet; so the two outputs are disjoint
    if and only if every identifier that is in both SubSet and UnsubSet is
    in ProfileSet. *)
Theorem subscriptions_unsubscriptions_disjoint_iff :
  ∀ ps ss us : JSSet.t,
    list_to_set (reconcile ps ss us).1 ∩ list_to_set (reconcile ps ss us).2
    =@{gset string} (JSSet.members ss ∩ JSSet.members us) ∖ JSSet.members ps
    ∧ (list_to_set (reconcile ps ss us).1
       ∩ list_to_set (reconcile ps ss us).2 =@{gset string} ∅
       ↔ JSSet.members ss ∩ JSSet.members us ⊆ JSSet.members ps).
Proof.
  intros ps ss us. split; [apply subscriptions_unsubscriptions_common|].
  rewrite subscriptions_unsubscriptions_common.
  generalize (JSSet.members ss ∩ JSSet.members us), (JSSet.members ps).
  intros B P. split.
  - intros Hempty x HxB. destruct (decide (x ∈ P)) as [|HxP]; [done|].
    assert (x ∈ B ∖ P) as Hx by (by apply elem_of_difference).
    rewrite Hempty in Hx. by apply not_elem_of_empty in Hx.
  - intros Hsub. apply set_eq. intros x.
    rewrite elem_of_difference. split.
    + intros [HxB HxP]. by apply Hsub in HxB.
    + intros Hx. by apply not_elem_of_empty in Hx.
Qed.

(** C3. With an empty ProfileSet and SubSet = UnsubSet = {x}, the
    subscriptions array is [x] and the unsubscriptions array is [x]. *)
Theorem same_day_subscribe_and_unsubscribe :
  ∀ x : string,
    reconcile JSSet.empty (JSSet.of_list [x]) (JSSet.of_list [x])
    = ([x], [x]).
Proof. intros x. reflexivity. Qed.

(** C7, as stated, fails: a profile created that day that also has a
    subscribe event does not appear "exactly once" in subscriptions when it
    has an unsubscribe event too.  With ProfileSet = SubSet = UnsubSet = {a}
    both arrays are empty and a occurs zero times in subscriptions. *)
Lemma new_profile_subscribed_and_unsubscribed :
  reconcile (JSSet.of_list ["a"]) (JSSet.of_list ["a"]) (JSSet.of_list ["a"])
  = ([], [])
  ∧ count_occ string_dec
      (reconcile (JSSet.of_list ["a"]) (JSSet.of_list ["a"])
         (JSSet.of_list ["a"])).1 "a" = 0%nat.
Proof. split; reflexivity. Qed.

(** C7, amended. For every three input sets, no identifier occurs twice in
    the subscriptions array nor in the unsubscriptions array; an identifier
    of a profile created that day that also has a subscribe event occurs
    exactly once in the subscriptions array, unless it has an unsubscribe
    event too, the case that the first loop skips: it then does not occur in
    that array at all. *)
Theorem outputs_without_duplicates :
  ∀ ps ss us : JSSet.t,
    NoDup (reconcile ps ss us).1 ∧ NoDup (reconcile ps ss us).2
    ∧ ∀ x : string,
        x ∈ JSSet.values ps → x ∈ JSSet.values ss →
        count_occ string_dec (reconcile ps ss us).1 x
        = if JSSet.has us x then 0%nat else 1%nat.
Proof.
  intros ps ss us.
  assert (NoDup (reconcile ps ss us).1) as Hsubs.
  { rewrite reconcile_filters. cbn [fst]. apply NoDup_app. split; [|split].
    - apply NoDup_List_filter, JSSet.values_NoDup.
    - intros x Hx Hx'. apply elem_of_List_filter in Hx as [Hx _].
      apply elem_of_List_filter in Hx' as [_ Hx'].
      by apply JSSet_has_false in Hx'.
    - apply NoDup_List_filter, JSSet.values_NoDup. }
  split; [done|]. split.
  - rewrite reconcile_filters. cbn [snd].
    apply NoDup_List_filter, JSSet.values_NoDup.
  - intros x Hps Hss. destruct (JSSet.has us x) eqn:Hus.
    + apply count_occ_not_In. rewrite <- list_elem_of_In.
      rewrite elem_of_subscriptions. apply JSSet_has_true in Hus. tauto.
    + apply NoDup_ListNoDup in Hsubs.
      apply (proj1 (NoDup_count_occ' string_dec _) Hsubs).
      apply list_elem_of_In, elem_of_subscriptions. left. split; [done|].
      apply JSSet_has_false. by rewrite Hus.
Qed.

Lemma outputs_without_duplicates_witness :
  count_occ string_dec
    (reconcile (JSSet.of_list ["a"]) (JSSet.of_list ["a"]) JSSet.empty).1 "a"
  = 1%nat.
Proof.
  apply (proj2 (proj2 (outputs_without_duplicates (JSSet.of_list ["a"])
                         (JSSet.of_list ["a"]) JSSet.empty)) "a").
  - vm_compute. apply list_elem_of_here.
  - vm_compute. apply list_elem_of_here.
Defined.

(** C10. The unsubscriptions array does not depend on SubSet: with the same
    ProfileSet and UnsubSet, any two SubSets give the same array, in the same
    order; and two runs of the handler that return a feed, on stores that
    answer the same to the scans of the profile and the unsubscribe keys,
    return the same unsubscriptions. *)
Theorem unsubscriptions_independent_of_subscriptions :
  (∀ ps us ss1 ss2 : JSSet.t,
      (reconcile ps ss1 us).2 = (reconcile ps ss2 us).2)
  ∧ ∀ (ts1 ts2 : TableService) (table : string) (now1 now2 : Z)
      (attrs : IAzureUserAttributes) (date : string)
      (calls1 calls2 : list StoreCall) (feed1 feed2 : SubscriptionsFeed),
      fetched ts1 table ("P-" +:+ date +:+ "-S")
      = fetched ts2 table ("P-" +:+ date +:+ "-S") →
      fetched ts1 table
        ("S-" +:+ date +:+ "-" +:+ serviceId (service attrs) +:+ "-U")
      = fetched ts2 table
          ("S-" +:+ date +:+ "-" +:+ serviceId (service attrs) +:+ "-U") →
      (GetSubscriptionsFeedHandler ts1 table now1 attrs date calls1).1
      = Resolved (ResponseSuccessJson feed1) →
      (GetSubscriptionsFeedHandler ts2 table now2 attrs date calls2).1
      = Resolved (ResponseSuccessJson feed2) →
      unsubscriptions feed1 = unsubscriptions feed2.
Proof.
  split; [reflexivity|].
  intros ts1 ts2 table now1 now2 attrs date calls1 calls2 feed1 feed2
    HP HU Hrun1 Hrun2.
  destruct (JSNumber.lt (JSNumber.Num now1) (availableSince date)) eqn:Hgate1;
    [by rewrite handler_not_yet_available in Hrun1|].
  destruct (JSNumber.lt (JSNumber.Num now2) (availableSince date)) eqn:Hgate2;
    [by rewrite handler_not_yet_available in Hrun2|].
  rewrite handler_available in Hrun1 by done.
  rewrite handler_available in Hrun2 by done.
  cbv zeta in Hrun1, Hrun2. rewrite <- HP, <- HU in Hrun2.
  set (sid := serviceId (service attrs)) in *.
  destruct (fetched ts1 table ("P-" +:+ date +:+ "-S")) as [ps|?]; [|done].
  destruct (fetched ts1 table ("S-" +:+ date +:+ "-" +:+ sid +:+ "-S"))
    as [ss1|?]; [|done].
  destruct (fetched ts2 table ("S-" +:+ date +:+ "-" +:+ sid +:+ "-S"))
    as [ss2|?]; [|done].
  destruct (fetched ts1 table ("S-" +:+ date +:+ "-" +:+ sid +:+ "-U"))
    as [us|?]; [|done].
  cbn [fst] in Hrun1, Hrun2.
  injection Hrun1 as <-. injection Hrun2 as <-. reflexivity.
Qed.

(** ** The availability gate *)

Lemma handler_never_not_found_when_available (tableService : TableService)
    (table : string) (now : Z) (attrs : IAzureUserAttributes) (date : string)
    (calls : list StoreCall) (title detail : string) :
  JSNumber.lt (JSNumber.Num now) (availableSince date) = false →
  (GetSubscriptionsFeedHandler tableService table now attrs date calls).1
  ≠ Resolved (ResponseErrorNotFound title detail).
Proof.
  intros Hgate. rewrite handler_available by done. cbv zeta.
  repeat (destruct (fetched tableService table _); [|done]). done.
Qed.

(** C4. For a calendar date D, written YYYY-MM-DD, the handler answers
    "not found", with a detail that names the date and the instant of the
    midnight UTC of the day after D, if the current time is strictly before
    that midnight, and never answers "not found" otherwise.  For 2021-05-01
    at 2021-05-01T23:00:00Z the answer is "not found" with the instant
    2021-05-02T00:00:00Z (Sun, 02 May 2021 00:00:00 GMT); at
    2021-05-02T00:00:01Z the request passes the gate. *)
Theorem availability_gate :
  (∀ (D : CalendarDate) (tableService : TableService) (table : string)
     (now : Z) (attrs : IAzureUserAttributes) (calls : list StoreCall),
      validDate D = true →
      let result :=
        (GetSubscriptionsFeedHandler tableService table now attrs
           (shortDate D) calls).1 in
      (now < midnightUTC (nextDay D) →
       result = Resolved (ResponseErrorNotFound "Data not available yet"
         ("Subscription data for " +:+ shortDate D
          +:+ " will be available from "
          +:+ JSDate.dayName (JSDate.WeekDay (midnightUTC (nextDay D)))
          +:+ ", " +:+ JSDate.pad2 (day (nextDay D)) +:+ " "
          +:+ JSDate.monthName (month (nextDay D) - 1) +:+ " "
          +:+ JSDate.paddedYear (year (nextDay D)) +:+ " 00:00:00 GMT")))
      ∧ (midnightUTC (nextDay D) <= now →
         ∀ title detail : string,
           result ≠ Resolved (ResponseErrorNotFound title detail)))
  ∧ JSDate.getTime "2021-05-01T23:00:00Z" = JSNumber.Num 1619910000000
  ∧ JSDate.getTime "2021-05-02T00:00:00Z" = JSNumber.Num 1619913600000
  ∧ JSDate.getTime "2021-05-02T00:00:01Z" = JSNumber.Num 1619913601000
  ∧ (∀ (tableService : TableService) (table : string)
       (attrs : IAzureUserAttributes) (calls : list StoreCall),
        (GetSubscriptionsFeedHandler tableService table 1619910000000 attrs
           "2021-05-01" calls).1
        = Resolved (ResponseErrorNotFound "Data not available yet"
            "Subscription data for 2021-05-01 will be available from Sun, 02 May 2021 00:00:00 GMT"))
  ∧ (∀ (tableService : TableService) (table : string)
       (attrs : IAzureUserAttributes) (calls : list StoreCall)
       (title detail : string),
        (GetSubscriptionsFeedHandler tableService table 1619913601000 attrs
           "2021-05-01" calls).1
        ≠ Resolved (ResponseErrorNotFound title detail)).
Proof.
  refine (conj _ (conj _ (conj _ (conj _ (conj _ _))))); try reflexivity.
  - intros D tableService table now attrs calls HD result. subst result.
    pose proof (availableSince_shortDate D HD) as Havailable. split.
    + intros Hnow. rewrite handler_not_yet_available.
      * rewrite Havailable.
        destruct (nextDay_in_month D HD) as [Hmonth Hday].
        by rewrite toUTCString_midnightUTC.
      * rewrite Havailable. cbn [JSNumber.lt]. by apply Z.ltb_lt.
    + intros Hnow title detail.
      apply handler_never_not_found_when_available.
      rewrite Havailable. cbn [JSNumber.lt]. by apply Z.ltb_ge.
  - intros tableService table attrs calls title detail.
    by apply handler_never_not_found_when_available.
Qed.

Lemma availability_gate_witness :
  (GetSubscriptionsFeedHandler emptyStore "feed" 1619910000000
     exampleAttributes (shortDate May1st2021) []).1
  = Resolved (ResponseErrorNotFound "Data not available yet"
      "Subscription data for 2021-05-01 will be available from Sun, 02 May 2021 00:00:00 GMT").
Proof.
  apply (proj1 availability_gate May1st2021 emptyStore "feed" 1619910000000
           exampleAttributes []).
  - reflexivity.
  - vm_compute. reflexivity.
Defined.

(** C8. For a calendar date D, whenever the current time is strictly before
    the midnight UTC of the day after D, the handler returns its answer
    without a single round trip to the store; from that midnight on, its
    first round trip is the fetch of the first page of the profile
    events. *)
Theorem gate_before_any_scan :
  ∀ (D : CalendarDate) (tableService : TableService) (table : string)
    (now : Z) (attrs : IAzureUserAttributes) (calls : list StoreCall),
    validDate D = true →
    let run :=
      GetSubscriptionsFeedHandler tableService table now attrs
        (shortDate D) calls in
    (now < midnightUTC (nextDay D) →
     (∃ response : Response, run.1 = Resolved response) ∧ run.2 = calls)
    ∧ (midnightUTC (nextDay D) <= now →
       ∃ more : list StoreCall,
         run.2 = calls ++ {| call_table := table;
                             call_partitionKey :=
                               "P-" +:+ shortDate D +:+ "-S";
                             call_page := 0 |} :: more).
Proof.
  intros D tableService table now attrs calls HD run. subst run.
  pose proof (availableSince_shortDate D HD) as Havailable. split.
  - intros Hnow. rewrite handler_not_yet_available.
    + split; [by eexists|done].
    + rewrite Havailable. cbn [JSNumber.lt]. by apply Z.ltb_lt.
  - intros Hnow. rewrite handler_available.
    2:{ rewrite Havailable. cbn [JSNumber.lt]. by apply Z.ltb_ge. }
    cbv zeta.
    assert (∃ rest, scanRoundTrips tableService table
                      ("P-" +:+ shortDate D +:+ "-S")
                    = {| call_table := table;
                         call_partitionKey := "P-" +:+ shortDate D +:+ "-S";
                         call_page := 0 |} :: rest) as [rest ->].
    { unfold scanRoundTrips, roundTrips. cbn [fetches].
      destruct (tableService table _).1; cbn; by eexists. }
    repeat (destruct (fetched tableService table _)); cbn [snd];
      rewrite <- ?app_comm_cons; by eexists.
Qed.

Lemma gate_before_any_scan_witness :
  (GetSubscriptionsFeedHandler failingStore "feed" 1619910000000
     exampleAttributes (shortDate May1st2021) []).2 = [].
Proof.
  apply (proj1 (gate_before_any_scan May1st2021 failingStore "feed"
                  1619910000000 exampleAttributes [] eq_refl)).
  vm_compute. reflexivity.
Defined.

(** ** Failures of the store *)

(** C6. Once the date is available, if a scan of the store fails (the scan
    of the profile events, or else that of the subscribe events, or else
    that of the unsubscribe events), the handler rejects with the error of
    that scan, and so returns no feed, the scans before it having completed
    successfully. *)
Theorem store_failure_aborts :
  ∀ (tableService : TableService) (table : string) (now : Z)
    (attrs : IAzureUserAttributes) (date : string) (calls : list StoreCall)
    (e : StoreQueryError),
    JSNumber.lt (JSNumber.Num now) (availableSince date) = false →
    let kP := "P-" +:+ date +:+ "-S" in
    let kS := "S-" +:+ date +:+ "-" +:+ serviceId (service attrs) +:+ "-S" in
    let kU := "S-" +:+ date +:+ "-" +:+ serviceId (service attrs) +:+ "-U" in
    scanFailure tableService table kP = Some e
    ∨ (scanFailure tableService table kP = None
       ∧ scanFailure tableService table kS = Some e)
    ∨ (scanFailure tableService table kP = None
       ∧ scanFailure tableService table kS = None
       ∧ scanFailure tableService table kU = Some e) →
    (GetSubscriptionsFeedHandler tableService table now attrs date calls).1
    = Rejected e.
Proof.
  intros tableService table now attrs date calls e Hgate kP kS kU Hfail.
  rewrite handler_available by done. cbv zeta. fold kP kS kU.
  assert (∀ key, scanFailure tableService table key = None →
                 ∃ s, fetched tableService table key = Resolved s) as Hok.
  { intros key Hnone. destruct (fetched tableService table key) eqn:Hf;
      [by eexists|].
    apply fetched_rejected in Hf. congruence. }
  destruct Hfail as [HP | [[HP HS] | (HP & HS & HU)]].
  - apply fetched_rejected in HP. by rewrite HP.
  - apply Hok in HP as [ps ->]. apply fetched_rejected in HS. by rewrite HS.
  - apply Hok in HP as [ps ->]. apply Hok in HS as [ss ->].
    apply fetched_rejected in HU. by rewrite HU.
Qed.

Lemma store_failure_aborts_witness :
  (GetSubscriptionsFeedHandler failingStore "feed" 1619913601000
     exampleAttributes "2021-05-01" []).1
  = Rejected {| message := "throttled" |}.
Proof.
  apply (store_failure_aborts failingStore "feed" 1619913601000
           exampleAttributes "2021-05-01" [] {| message := "throttled" |}).
  - reflexivity.
  - right. left. split; reflexivity.
Defined.

(** ** The partition keys *)

(** C5, as stated, fails: for 2021-05-01 and the service svc, the handler
    scans the keys P-2021-05-01-S, S-2021-05-01-svc-S and S-2021-05-01-svc-U,
    and never the key P-2021-05-01 of the template without event type. *)
Lemma profile_key_has_event_type :
  call_partitionKey <$>
    (GetSubscriptionsFeedHandler emptyStore "feed" 1619913601000
       exampleAttributes "2021-05-01" []).2
  = ["P-2021-05-01-S"; "S-2021-05-01-svc-S"; "S-2021-05-01-svc-U"]
  ∧ spec_partitionKey PrefixP "2021-05-01" None None = "P-2021-05-01"
  ∧ bool_decide
      (spec_partitionKey PrefixP "2021-05-01" None None
       ∈ call_partitionKey <$>
           (GetSubscriptionsFeedHandler emptyStore "feed" 1619913601000
              exampleAttributes "2021-05-01" []).2) = false.
Proof. repeat split; vm_compute; reflexivity. Qed.

(** C5, amended. Once the date is available, every round trip of the
    handler to the store carries one of three partition keys of the
    template: P-{date}-S for the profile events (prefix P, no scope, event
    type S), S-{date}-{serviceId}-S for the subscribe events and
    S-{date}-{serviceId}-U for the unsubscribe events; the profile key is
    always scanned, and each of the other two unless a scan before it
    fails. *)
Theorem partition_keys_scanned :
  ∀ (tableService : TableService) (table : string) (now : Z)
    (attrs : IAzureUserAttributes) (date : string) (calls : list StoreCall),
    JSNumber.lt (JSNumber.Num now) (availableSince date) = false →
    let sid := serviceId (service attrs) in
    let kP := spec_partitionKey PrefixP date None (Some EventS) in
    let kS := spec_partitionKey PrefixS date (Some sid) (Some EventS) in
    let kU := spec_partitionKey PrefixS date (Some sid) (Some EventU) in
    kP = "P-" +:+ date +:+ "-S"
    ∧ kS = "S-" +:+ date +:+ "-" +:+ sid +:+ "-S"
    ∧ kU = "S-" +:+ date +:+ "-" +:+ sid +:+ "-U"
    ∧ ∃ scanned : list StoreCall,
        (GetSubscriptionsFeedHandler tableService table now attrs date
           calls).2 = calls ++ scanned
        ∧ Forall (λ c, call_partitionKey c ∈ [kP; kS; kU]) scanned
        ∧ kP ∈ call_partitionKey <$> scanned
        ∧ (scanFailure tableService table kP = None →
           kS ∈ call_partitionKey <$> scanned)
        ∧ (scanFailure tableService table kP = None →
           scanFailure tableService table kS = None →
           kU ∈ call_partitionKey <$> scanned).
Proof.
  intros tableService table now attrs date calls Hgate sid kP kS kU.
  assert (kP = "P-" +:+ date +:+ "-S") as HkP.
  { reflexivity. }
  assert (kS = "S-" +:+ date +:+ "-" +:+ sid +:+ "-S") as HkS.
  { reflexivity. }
  assert (kU = "S-" +:+ date +:+ "-" +:+ sid +:+ "-U") as HkU.
  { reflexivity. }
  split; [done|]. split; [done|]. split; [done|].
  rewrite handler_available by done. cbv zeta. fold sid.
  rewrite <- HkP, <- HkS, <- HkU.
  destruct (scanRoundTrips_keys tableService table kP) as (nP & HnP & HtP).
  destruct (scanRoundTrips_keys tableService table kS) as (nS & HnS & HtS).
  destruct (scanRoundTrips_keys tableService table kU) as (nU & HnU & HtU).
  assert (∀ (n : nat) (k : string), (0 < n)%nat → k ∈ replicate n k) as Hin.
  { intros [|n] k Hn; [lia|]. apply list_elem_of_here. }
  assert (∀ (key : string) (trips : list StoreCall) (n : nat),
            call_partitionKey <$> trips = replicate n key →
            key ∈ [kP; kS; kU] →
            Forall (λ c, call_partitionKey c ∈ [kP; kS; kU]) trips) as Hall.
  { intros key trips n Heq Hkey. apply Forall_forall. intros c Hc.
    assert (call_partitionKey c ∈ call_partitionKey <$> trips) as Hc'
      by (by apply list_elem_of_fmap_2).
    rewrite Heq in Hc'. apply elem_of_replicate in Hc' as [-> _]. done. }
  pose proof (Hall kP _ _ HtP ltac:(set_solver)) as HallP.
  pose proof (Hall kS _ _ HtS ltac:(set_solver)) as HallS.
  pose proof (Hall kU _ _ HtU ltac:(set_solver)) as HallU.
  pose proof (Hin nP kP HnP) as HinP. rewrite <- HtP in HinP.
  pose proof (Hin nS kS HnS) as HinS. rewrite <- HtS in HinS.
  pose proof (Hin nU kU HnU) as HinU. rewrite <- HtU in HinU.
  destruct (fetched tableService table kP) as [ps|eP] eqn:HfP.
  2:{ apply fetched_rejected in HfP. eexists. split; [done|].
      split; [done|]. split; [done|]. split; congruence. }
  destruct (fetched tableService table kS) as [ss|eS] eqn:HfS.
  2:{ apply fetched_rejected in HfS. eexists. split; [done|].
      rewrite fmap_app, Forall_app, !elem_of_app.
      split; [done|]. split; [by left|]. split; [by right|congruence]. }
  assert (∃ scanned,
            calls ++ scanRoundTrips tableService table kP
                  ++ scanRoundTrips tableService table kS
                  ++ scanRoundTrips tableService table kU = calls ++ scanned
            ∧ Forall (λ c, call_partitionKey c ∈ [kP; kS; kU]) scanned
            ∧ kP ∈ call_partitionKey <$> scanned
            ∧ kS ∈ call_partitionKey <$> scanned
            ∧ kU ∈ call_partitionKey <$> scanned)
    as (scanned & Hrun & Hall' & HinP' & HinS' & HinU').
  { eexists. split; [done|]. rewrite !fmap_app, !Forall_app, !elem_of_app.
    split; [done|]. split; [by left|]. split; [by right; left|].
    by right; right. }
  exists scanned. split; [by destruct (fetched tableService table kU)|].
  split; [exact Hall'|]. split; [exact HinP'|]. split; intros; done.
Qed.

Lemma partition_keys_scanned_witness :
  ∃ scanned : list StoreCall,
    (GetSubscriptionsFeedHandler pagedStore2 "feed" 1619913601000
       exampleAttributes "2021-05-01" []).2 = [] ++ scanned
    ∧ Forall (λ c, call_partitionKey c
                   ∈ ["P-2021-05-01-S"; "S-2021-05-01-svc-S";
                      "S-2021-05-01-svc-U"]) scanned.
Proof.
  destruct (partition_keys_scanned pagedStore2 "feed" 1619913601000
              exampleAttributes "2021-05-01" [] eq_refl)
    as (_ & _ & _ & scanned & Hrun & Hkeys & _).
  exists scanned. split; [exact Hrun|exact Hkeys].
Defined.

(** ** Idempotence *)

(** Sets of the same members give arrays of the same members. *)
Lemma reconcile_members (ps1 ss1 us1 ps2 ss2 us2 : JSSet.t) :
  JSSet.members ps1 = JSSet.members ps2 →
  JSSet.members ss1 = JSSet.members ss2 →
  JSSet.members us1 = JSSet.members us2 →
  list_to_set (reconcile ps1 ss1 us1).1
  =@{gset string} list_to_set (reconcile ps2 ss2 us2).1
  ∧ list_to_set (reconcile ps1 ss1 us1).2
    =@{gset string} list_to_set (reconcile ps2 ss2 us2).2.
Proof.
  intros HP HS HU. rewrite !subscriptions_members, !unsubscriptions_members.
  by rewrite HP, HS, HU.
Qed.

(** C9. Two runs of the handler for the same date and service, at times on
    the same side of the availability instant, on stores whose three scans
    end alike (each with a set of the same members, whatever the paging and
    the order of the rows, or with the same error), end alike: two feeds
    with the same date and the same members in subscriptions and in
    unsubscriptions, or the same "not found" answer, or the same error. *)
Theorem reconcile_idempotent :
  ∀ (ts1 ts2 : TableService) (table : string) (now1 now2 : Z)
    (attrs : IAzureUserAttributes) (date : string)
    (calls1 calls2 : list StoreCall),
    let kP := "P-" +:+ date +:+ "-S" in
    let kS := "S-" +:+ date +:+ "-" +:+ serviceId (service attrs) +:+ "-S" in
    let kU := "S-" +:+ date +:+ "-" +:+ serviceId (service attrs) +:+ "-U" in
    JSNumber.lt (JSNumber.Num now1) (availableSince date)
    = JSNumber.lt (JSNumber.Num now2) (availableSince date) →
    sameUsers (fetched ts1 table kP) (fetched ts2 table kP) →
    sameUsers (fetched ts1 table kS) (fetched ts2 table kS) →
    sameUsers (fetched ts1 table kU) (fetched ts2 table kU) →
    sameFeed
      (GetSubscriptionsFeedHandler ts1 table now1 attrs date calls1).1
      (GetSubscriptionsFeedHandler ts2 table now2 attrs date calls2).1.
Proof.
  intros ts1 ts2 table now1 now2 attrs date calls1 calls2 kP kS kU
    Hgate HP HS HU.
  destruct (JSNumber.lt (JSNumber.Num now2) (availableSince date)) eqn:Hgate2.
  - rewrite !handler_not_yet_available by done. cbn. done.
  - rewrite !handler_available by done. cbv zeta. fold kP kS kU.
    destruct (fetched ts1 table kP) as [ps1|], (fetched ts2 table kP) as [ps2|];
      cbn in HP; try done.
    destruct (fetched ts1 table kS) as [ss1|], (fetched ts2 table kS) as [ss2|];
      cbn in HS; try done.
    destruct (fetched ts1 table kU) as [us1|], (fetched ts2 table kU) as [us2|];
      cbn in HU; try done.
    cbn [fst sameFeed dateUTC subscriptions unsubscriptions].
    split; [done|]. by apply reconcile_members.
Qed.

Lemma reconcile_idempotent_witness :
  sameFeed
    (GetSubscriptionsFeedHandler pagedStore1 "feed" 1619913600000
       exampleAttributes "2021-05-01" []).1
    (GetSubscriptionsFeedHandler pagedStore2 "feed" 1619913601000
       exampleAttributes "2021-05-01" []).1.
Proof.
  apply (reconcile_idempotent pagedStore1 pagedStore2 "feed" 1619913600000
           1619913601000 exampleAttributes "2021-05-01" [] []).
  - reflexivity.
  - vm_compute. reflexivity.
  - vm_compute. reflexivity.
  - vm_compute. reflexivity.
Defined.

(** * Further properties of the handler's code *)

(** ** The two arrays: order, edge cases, coverage *)

(** X1. The subscriptions array lists first the new profiles that did not
    unsubscribe, in the order of ProfileSet, then the subscribers that are
    not new profiles, in the order of SubSet; the unsubscriptions array
    follows the order of UnsubSet. *)
Theorem reconcile_order :
  ∀ ps ss us : JSSet.t,
    (reconcile ps ss us).1
    = List.filter (λ x, negb (JSSet.has us x)) (JSSet.values ps)
      ++ List.filter (λ x, negb (JSSet.has ps x)) (JSSet.values ss)
    ∧ (reconcile ps ss us).2
      = List.filter (λ x, negb (JSSet.has ps x)) (JSSet.values us).
Proof. intros ps ss us. by rewrite reconcile_filters. Qed.

Lemma List_filter_all (keep : string → bool) (l : list string) :
  (∀ x, x ∈ l → keep x = true) → List.filter keep l = l.
Proof.
  induction l as [|x l IH]; intros Hall; [done|]. cbn.
  rewrite (Hall x) by apply list_elem_of_here. f_equal.
  apply IH. intros y Hy. apply Hall. by apply list_elem_of_further.
Qed.

(** X2. On a day without any new profile, the feed is exactly the events of
    the service: the subscriptions array is SubSet and the unsubscriptions
    array is UnsubSet, each in its own order. *)
Theorem reconcile_without_profiles :
  ∀ ps ss us : JSSet.t,
    JSSet.values ps = [] →
    reconcile ps ss us = (JSSet.values ss, JSSet.values us).
Proof.
  intros ps ss us Hps. rewrite reconcile_filters, Hps. cbn [List.filter app].
  assert (∀ x, negb (JSSet.has ps x) = true) as Hnot.
  { intros x. apply JSSet_has_false. rewrite Hps. apply not_elem_of_nil. }
  by rewrite !List_filter_all by (intros; apply Hnot).
Qed.

Lemma reconcile_without_profiles_witness :
  reconcile JSSet.empty (JSSet.of_list ["b"; "a"]) (JSSet.of_list ["a"; "c"])
  = (["b"; "a"], ["a"; "c"]).
Proof.
  apply (reconcile_without_profiles JSSet.empty (JSSet.of_list ["b"; "a"])
           (JSSet.of_list ["a"; "c"])).
  reflexivity.
Defined.

(** X3. On a day without any unsubscription, every new profile is reported
    as subscribed, in the order of ProfileSet, before the other subscribers,
    and nobody is reported as unsubscribed. *)
Theorem reconcile_without_unsubscriptions :
  ∀ ps ss us : JSSet.t,
    JSSet.values us = [] →
    reconcile ps ss us
    = (JSSet.values ps
       ++ List.filter (λ x, negb (JSSet.has ps x)) (JSSet.values ss), []).
Proof.
  intros ps ss us Hus. rewrite reconcile_filters, Hus. cbn [List.filter].
  assert (∀ x, negb (JSSet.has us x) = true) as Hnot.
  { intros x. apply JSSet_has_false. rewrite Hus. apply not_elem_of_nil. }
  by rewrite List_filter_all by (intros; apply Hnot).
Qed.

Lemma reconcile_without_unsubscriptions_witness :
  reconcile (JSSet.of_list ["a"; "b"]) (JSSet.of_list ["c"; "b"]) JSSet.empty
  = (["a"; "b"; "c"], []).
Proof.
  apply (reconcile_without_unsubscriptions (JSSet.of_list ["a"; "b"])
           (JSSet.of_list ["c"; "b"]) JSSet.empty).
  reflexivity.
Defined.

(** X4. A user with an event that day is reported in one of the two arrays,
    unless it is a new profile that unsubscribed: such a user is in neither
    array.  No new profile is ever reported as unsubscribed, and every user
    reported has an event that day. *)
Theorem reconcile_coverage :
  ∀ (ps ss us : JSSet.t) (x : string),
    (x ∈ (reconcile ps ss us).1 ∨ x ∈ (reconcile ps ss us).2
     ↔ (x ∈ JSSet.values ps ∨ x ∈ JSSet.values ss ∨ x ∈ JSSet.values us)
       ∧ ¬ (x ∈ JSSet.values ps ∧ x ∈ JSSet.values us))
    ∧ (x ∈ (reconcile ps ss us).2 → x ∉ JSSet.values ps).
Proof.
  intros ps ss us x.
  rewrite elem_of_subscriptions, elem_of_unsubscriptions.
  destruct (decide (x ∈ JSSet.values ps)), (decide (x ∈ JSSet.values ss)),
    (decide (x ∈ JSSet.values us)); tauto.
Qed.

(** X5. The arrays have as many entries as the sets they stand for: the
    subscriptions array |ProfileSet ∖ UnsubSet| + |SubSet ∖ ProfileSet|, the
    unsubscriptions array |UnsubSet ∖ ProfileSet|; neither is longer than
    the sets it was filtered from. *)
Theorem reconcile_sizes :
  ∀ ps ss us : JSSet.t,
    length (reconcile ps ss us).1
    = (size (JSSet.members ps ∖ JSSet.members us)
       + size (JSSet.members ss ∖ JSSet.members ps))%nat
    ∧ length (reconcile ps ss us).2
      = size (JSSet.members us ∖ JSSet.members ps)
    ∧ (length (reconcile ps ss us).1
       ≤ length (JSSet.values ps) + length (JSSet.values ss))%nat
    ∧ (length (reconcile ps ss us).2 ≤ length (JSSet.values us))%nat.
Proof.
  intros ps ss us.
  assert (∀ (keep : string → bool) (l : list string),
            (length (List.filter keep l) ≤ length l)%nat) as Hle.
  { intros keep l. induction l as [|y l IH]; cbn; [lia|].
    destruct (keep y); cbn; lia. }
  assert (∀ (keep : string → bool) (s : JSSet.t) (X : gset string),
            (∀ x, x ∈ X ↔ x ∈ JSSet.values s ∧ keep x = true) →
            length (List.filter keep (JSSet.values s)) = size X) as Hsize.
  { intros keep s X HX.
    assert (X = list_to_set (List.filter keep (JSSet.values s))) as ->.
    { apply set_eq. intros x.
      by rewrite HX, elem_of_list_to_set, elem_of_List_filter. }
    symmetry. apply size_list_to_set, NoDup_List_filter, JSSet.values_NoDup. }
  rewrite reconcile_filters. cbn [fst snd]. rewrite length_app.
  split; [|split; [|split]].
  - f_equal; apply Hsize; intros x;
      by rewrite elem_of_difference, !elem_of_members, JSSet_has_false.
  - apply Hsize. intros x.
    by rewrite elem_of_difference, !elem_of_members, JSSet_has_false.
  - pose proof (Hle (λ x, negb (JSSet.has us x)) (JSSet.values ps)).
    pose proof (Hle (λ x, negb (JSSet.has ps x)) (JSSet.values ss)). lia.
  - apply Hle.
Qed.

(** ** The handler: dates that do not parse, outcomes, round trips *)

(** X6. If the date does not parse, so that [availableSince] is NaN, the
    comparison with the current time is false whatever the time: the handler
    never answers "not found" and goes on to scan the store, starting with
    the profile key built from the date as given. *)
Theorem unparsable_date_skips_gate :
  ∀ (tableService : TableService) (table : string) (now : Z)
    (attrs : IAzureUserAttributes) (date : string) (calls : list StoreCall),
    availableSince date = JSNumber.NaN →
    (∀ title detail : string,
        (GetSubscriptionsFeedHandler tableService table now attrs date
           calls).1 ≠ Resolved (ResponseErrorNotFound title detail))
    ∧ ∃ more : list StoreCall,
        (GetSubscriptionsFeedHandler tableService table now attrs date
           calls).2
        = calls ++ {| call_table := table;
                      call_partitionKey := "P-" +:+ date +:+ "-S";
                      call_page := 0 |} :: more.
Proof.
  intros tableService table now attrs date calls HNaN.
  assert (JSNumber.lt (JSNumber.Num now) (availableSince date) = false)
    as Hgate by (by rewrite HNaN).
  split.
  - intros title detail. by apply handler_never_not_found_when_available.
  - rewrite handler_available by done. cbv zeta.
    assert (∃ rest, scanRoundTrips tableService table
                      ("P-" +:+ date +:+ "-S")
                    = {| call_table := table;
                         call_partitionKey := "P-" +:+ date +:+ "-S";
                         call_page := 0 |} :: rest) as [rest ->].
    { unfold scanRoundTrips, roundTrips. cbn [fetches].
      destruct (tableService table _).1; cbn; by eexists. }
    repeat (destruct (fetched tableService table _)); cbn [snd];
      rewrite <- ?app_comm_cons; by eexists.
Qed.

Lemma unparsable_date_skips_gate_witness :
  ∃ more : list StoreCall,
    (GetSubscriptionsFeedHandler emptyStore "feed" 0 exampleAttributes
       "2021-13-01" []).2
    = [] ++ {| call_table := "feed";
               call_partitionKey := "P-" +:+ "2021-13-01" +:+ "-S";
               call_page := 0 |} :: more.
Proof.
  apply (unparsable_date_skips_gate emptyStore "feed" 0 exampleAttributes
           "2021-13-01" []).
  reflexivity.
Defined.

(** X7. The handler answers with a feed exactly when the date is available
    (the current time is not before [availableSince]) and the three scans
    resolve; the feed then carries the date as given and the two arrays
    reconciled from the three sets. *)
Theorem handler_success_iff :
  ∀ (tableService : TableService) (table : string) (now : Z)
    (attrs : IAzureUserAttributes) (date : string) (calls : list StoreCall)
    (feed : SubscriptionsFeed),
    (GetSubscriptionsFeedHandler tableService table now attrs date calls).1
    = Resolved (ResponseSuccessJson feed)
    ↔ JSNumber.lt (JSNumber.Num now) (availableSince date) = false
      ∧ ∃ ps ss us : JSSet.t,
          fetched tableService table ("P-" +:+ date +:+ "-S") = Resolved ps
          ∧ fetched tableService table
              ("S-" +:+ date +:+ "-" +:+ serviceId (service attrs) +:+ "-S")
            = Resolved ss
          ∧ fetched tableService table
              ("S-" +:+ date +:+ "-" +:+ serviceId (service attrs) +:+ "-U")
            = Resolved us
          ∧ feed = {| dateUTC := date;
                      subscriptions := (reconcile ps ss us).1;
                      unsubscriptions := (reconcile ps ss us).2 |}.
Proof.
  intros tableService table now attrs date calls feed.
  destruct (JSNumber.lt (JSNumber.Num now) (availableSince date)) eqn:Hgate.
  - rewrite handler_not_yet_available by done. cbn [fst].
    split; [done|]. by intros [? _].
  - rewrite handler_available by done. cbv zeta.
    set (sid := serviceId (service attrs)).
    destruct (fetched tableService table ("P-" +:+ date +:+ "-S")) as [ps|eP].
    2:{ split; [done|]. by intros [_ (? & ? & ? & ? & _)]. }
    destruct (fetched tableService table
                ("S-" +:+ date +:+ "-" +:+ sid +:+ "-S")) as [ss|eS].
    2:{ split; [done|]. by intros [_ (? & ? & ? & _ & ? & _)]. }
    destruct (fetched tableService table
                ("S-" +:+ date +:+ "-" +:+ sid +:+ "-U")) as [us|eU].
    2:{ split; [done|]. by intros [_ (? & ? & ? & _ & _ & ? & _)]. }
    cbn [fst]. split.
    + intros Hrun. injection Hrun as <-. split; [done|].
      by exists ps, ss, us.
    + intros [_ (ps' & ss' & us' & HP & HS & HU & ->)].
      by injection HP as <-; injection HS as <-; injection HU as <-.
Qed.

Lemma partition_keys_differ (date sid : string) :
  "P-" +:+ date +:+ "-S" ≠ "S-" +:+ date +:+ "-" +:+ sid +:+ "-S"
  ∧ "P-" +:+ date +:+ "-S" ≠ "S-" +:+ date +:+ "-" +:+ sid +:+ "-U"
  ∧ "S-" +:+ date +:+ "-" +:+ sid +:+ "-S"
    ≠ "S-" +:+ date +:+ "-" +:+ sid +:+ "-U".
Proof.
  split; [done|]. split; [done|].
  intros Heq.
  injection Heq as Heq. apply (String.app_inj date) in Heq.
  injection Heq as Heq. by apply (String.app_inj sid) in Heq.
Qed.

Lemma scanRoundTrips_to (tableService : TableService) (table key : string) :
  Forall (λ c, call_table c = table ∧ call_partitionKey c = key)
    (scanRoundTrips tableService table key).
Proof.
  unfold scanRoundTrips, roundTrips. apply Forall_fmap, Forall_forall. done.
Qed.

(** X8. The three scans run one after the other and a failed scan ends the
    request: when the scan of the profile events fails, every round trip
    made was for the profile key; when it succeeds and the scan of the
    subscribe events fails, none was for the unsubscribe key.  The three
    keys differ from one another, and every round trip goes to the table
    that the handler was configured with. *)
Theorem no_scan_after_failure :
  ∀ (tableService : TableService) (table : string) (now : Z)
    (attrs : IAzureUserAttributes) (date : string) (calls : list StoreCall)
    (e : StoreQueryError),
    JSNumber.lt (JSNumber.Num now) (availableSince date) = false →
    let kP := "P-" +:+ date +:+ "-S" in
    let kS := "S-" +:+ date +:+ "-" +:+ serviceId (service attrs) +:+ "-S" in
    let kU := "S-" +:+ date +:+ "-" +:+ serviceId (service attrs) +:+ "-U" in
    let run :=
      GetSubscriptionsFeedHandler tableService table now attrs date calls in
    (kP ≠ kS ∧ kP ≠ kU ∧ kS ≠ kU)
    ∧ (∃ scanned : list StoreCall,
          run.2 = calls ++ scanned
          ∧ Forall (λ c, call_table c = table) scanned
          ∧ (scanFailure tableService table kP = Some e →
             Forall (λ c, call_partitionKey c = kP) scanned)
          ∧ (scanFailure tableService table kP = None →
             scanFailure tableService table kS = Some e →
             Forall (λ c, call_partitionKey c = kP ∨ call_partitionKey c = kS)
               scanned)).
Proof.
  intros tableService table now attrs date calls e Hgate kP kS kU run.
  split; [apply partition_keys_differ|]. subst run.
  rewrite handler_available by done. cbv zeta. fold kP kS kU.
  pose proof (scanRoundTrips_to tableService table kP) as HtP.
  pose proof (scanRoundTrips_to tableService table kS) as HtS.
  pose proof (scanRoundTrips_to tableService table kU) as HtU.
  assert (∀ key, Forall (λ c, call_table c = table)
                   (scanRoundTrips tableService table key)) as Htable.
  { intros key. eapply Forall_impl; [apply scanRoundTrips_to|].
    by intros c [? _]. }
  destruct (fetched tableService table kP) as [ps|eP] eqn:HfP.
  2:{ apply fetched_rejected in HfP. eexists. split; [done|].
      split; [apply Htable|]. split; [|congruence].
      intros _. eapply Forall_impl; [exact HtP|]. by intros c [_ ?]. }
  assert (scanFailure tableService table kP = None) as HnoP.
  { destruct (scanFailure tableService table kP) eqn:HsP; [|done].
    apply fetched_rejected in HsP. congruence. }
  destruct (fetched tableService table kS) as [ss|eS] eqn:HfS.
  2:{ apply fetched_rejected in HfS. eexists. split; [done|].
      split; [apply Forall_app; split; apply Htable|].
      split; [congruence|]. intros _ _. apply Forall_app. split.
      - eapply Forall_impl; [exact HtP|]. intros c [_ ?]. by left.
      - eapply Forall_impl; [exact HtS|]. intros c [_ ?]. by right. }
  assert (scanFailure tableService table kS = None) as HnoS.
  { destruct (scanFailure tableService table kS) eqn:HsS; [|done].
    apply fetched_rejected in HsS. congruence. }
  exists (scanRoundTrips tableService table kP
          ++ scanRoundTrips tableService table kS
          ++ scanRoundTrips tableService table kU).
  split; [by destruct (fetched tableService table kU)|].
  split; [repeat (apply Forall_app; split); apply Htable|].
  split; congruence.
Qed.

Lemma no_scan_after_failure_witness :
  ∃ scanned : list StoreCall,
    (GetSubscriptionsFeedHandler failingStore "feed" 1619913601000
       exampleAttributes "2021-05-01" []).2 = [] ++ scanned
    ∧ Forall (λ c, call_partitionKey c = "P-" +:+ "2021-05-01" +:+ "-S"
                   ∨ call_partitionKey c
                     = "S-" +:+ "2021-05-01" +:+ "-" +:+ "svc" +:+ "-S")
        scanned.
Proof.
  destruct (no_scan_after_failure failingStore "feed" 1619913601000
              exampleAttributes "2021-05-01" [] {| message := "throttled" |}
              eq_refl) as (_ & scanned & Hrun & _ & _ & Hkeys).
  exists scanned. split; [exact Hrun|]. apply Hkeys; reflexivity.
Defined.

(** X9. Availability only grows with time: if the handler answers "not
    found" at some time, it gives the same answer, without a round trip to
    the store, at every earlier time. *)
Theorem not_found_at_earlier_times :
  ∀ (tableService : TableService) (table : string) (now1 now2 : Z)
    (attrs : IAzureUserAttributes) (date : string) (calls : list StoreCall)
    (title detail : string),
    now1 <= now2 →
    (GetSubscriptionsFeedHandler tableService table now2 attrs date calls).1
    = Resolved (ResponseErrorNotFound title detail) →
    GetSubscriptionsFeedHandler tableService table now1 attrs date calls
    = (Resolved (ResponseErrorNotFound title detail), calls).
Proof.
  intros tableService table now1 now2 attrs date calls title detail Hle Hrun.
  destruct (JSNumber.lt (JSNumber.Num now2) (availableSince date)) eqn:Hgate;
    [|by apply handler_never_not_found_when_available in Hrun].
  rewrite handler_not_yet_available in Hrun by done.
  injection Hrun as <- <-.
  apply handler_not_yet_available.
  destruct (availableSince date) as [|t]; [done|]. cbn [JSNumber.lt] in *.
  apply Z.ltb_lt. apply Z.ltb_lt in Hgate. lia.
Qed.

Lemma not_found_at_earlier_times_witness :
  GetSubscriptionsFeedHandler failingStore "feed" 0 exampleAttributes
    "2021-05-01" []
  = (Resolved (ResponseErrorNotFound "Data not available yet"
       "Subscription data for 2021-05-01 will be available from Sun, 02 May 2021 00:00:00 GMT"),
     []).
Proof.
  apply (not_found_at_earlier_times failingStore "feed" 0 1619910000000
           exampleAttributes "2021-05-01" []).
  - lia.
  - reflexivity.
Defined.

Lemma nextDay_year (D : CalendarDate) :
  year D <= year (nextDay D) <= year D + 1.
Proof.
  unfold nextDay.
  destruct (day D <? DaysInMonth (year D) (month D)); [cbn; lia|].
  destruct (month D <? 12); cbn; lia.
Qed.

(** X10. For a calendar date D before 9999-12-31, [availableSince] of D,
    written YYYY-MM-DD, is the time that the handler's own parser gives to
    the midnight of the next calendar day: adding 24 hours moves to the date
    after, across the ends of months and years and on 29 February. *)
Theorem availableSince_is_next_date :
  ∀ D : CalendarDate,
    validDate D = true → year (nextDay D) <= 9999 →
    availableSince (shortDate D)
    = JSDate.getTime (shortDate (nextDay D) +:+ "T00:00:00Z").
Proof.
  intros D HD Hyear. rewrite availableSince_shortDate by done.
  destruct (nextDay_in_month D HD) as [Hm Hd].
  pose proof (nextDay_year D) as Hy.
  pose proof (validDate_bounds D HD) as (HyD & _ & _).
  pose proof (DaysInMonth_le_31 (year (nextDay D)) (month (nextDay D))).
  by rewrite getTime_shortDate by lia.
Qed.

Lemma availableSince_is_next_date_witness :
  availableSince "2020-02-28" = JSDate.getTime "2020-02-29T00:00:00Z"
  ∧ availableSince "2021-02-28" = JSDate.getTime "2021-03-01T00:00:00Z"
  ∧ availableSince "2021-12-31" = JSDate.getTime "2022-01-01T00:00:00Z".
Proof.
  split; [|split].
  - apply (availableSince_is_next_date
             {| year := 2020; month := 2; day := 28 |}); [reflexivity|].
    vm_compute. discriminate.
  - apply (availableSince_is_next_date
             {| year := 2021; month := 2; day := 28 |}); [reflexivity|].
    vm_compute. discriminate.
  - apply (availableSince_is_next_date
             {| year := 2021; month := 12; day := 31 |}); [reflexivity|].
    vm_compute. discriminate.
Defined.

(** ** The date parameter and the handler *)

Lemma isDigit_digitChar (k : Z) :
  0 <= k <= 9 → isDigit (JSDate.digitChar k) = true.
Proof. intros Hk. unfold isDigit. by rewrite digit_digitChar. Qed.

(** X11. [ShortDateString] accepts every calendar date written YYYY-MM-DD
    (years 0000 to 9999, 29 February in leap years included). *)
Theorem ShortDateString_accepts_calendar_dates :
  ∀ D : CalendarDate,
    validDate D = true → ShortDateString (shortDate D) = true.
Proof.
  intros D HD. apply validDate_bounds in HD as (Hy & Hm & Hd).
  pose proof (DaysInMonth_le_31 (year D) (month D)) as Hdim.
  unfold ShortDateString, newDate_getTime, shortDate, JSDate.pad4, JSDate.pad2.
  lazy [String.append list_ascii_of_string parseISODate shortDatePatternIn
        shortDatePatternAt].
  rewrite !isDigit_digitChar by (Z.div_mod_to_equations; lia).
  cbn [Ascii.eqb Bool.eqb andb orb].
  rewrite number_4, !number_2 by (Z.div_mod_to_equations; lia).
  cbn [mbind option_bind].
  replace (10 * (month D `div` 10) + month D `mod` 10) with (month D)
    by (Z.div_mod_to_equations; lia).
  replace (10 * (day D `div` 10) + day D `mod` 10) with (day D)
    by (Z.div_mod_to_equations; lia).
  replace ((1 <=? month D) && (month D <=? 12) && (1 <=? day D)
           && (day D <=? 31)) with true
    by (symmetry; repeat (apply andb_true_intro; split); lia).
  reflexivity.
Qed.

Lemma ShortDateString_accepts_calendar_dates_witness :
  ShortDateString "2020-02-29" = true.
Proof.
  apply (ShortDateString_accepts_calendar_dates
           {| year := 2020; month := 2; day := 29 |}).
  reflexivity.
Defined.

(** ** The activity that updates the status of a notification *)

Module ActivityProperties.
Import Activity.

(** X13. The activity returns FAILURE exactly when its input does not
    decode; it then logs one error entry, made of the reporter's lines
    joined by " / ", and asks for no update. *)
Theorem failure_iff_undecodable :
  ∀ (C : Collaborators) (model : NotificationStatusModel C)
    (input : Unknown C),
    let run := getNotificationStatusUpdaterActivityHandler C model input in
    (run.1 = Returned FAILURE ↔ ∃ errors, decode C input = inl errors)
    ∧ ∀ errors, decode C input = inl errors →
        run = (Returned FAILURE,
               [LogError
                  ("NotificationStatusUpdaterActivity|Cannot decode input|ERROR="
                   +:+ String.concat " / " (report C errors))])
        ∧ updates run.2 = [].
Proof.
  intros C model input run. subst run.
  unfold getNotificationStatusUpdaterActivityHandler.
  destruct (decode C input) as [errors|value].
  - split; [split; [by eexists|done]|].
    intros errors' [= <-]. done.
  - split; [|done]. cbv zeta.
    destruct (getNotificationStatusUpdater C model _ _ _ _) as [[?|?]|?];
      (split; [done|by intros [? ?]]).
Qed.

(** X14. The activity throws a new Error exactly when its input decodes and
    the awaited updater is fulfilled with an error, and the Error carries
    that error's message; it ends with the updater's own rejection, the same
    reason, exactly when its input decodes and the awaited updater rejects.
    Neither a failed nor a rejected update yields a FAILURE result. *)
Theorem throws_iff_update_fails :
  ∀ (C : Collaborators) (model : NotificationStatusModel C)
    (input : Unknown C),
    let run := getNotificationStatusUpdaterActivityHandler C model input in
    (∀ message : string,
        run.1 = Thrown message
        ↔ ∃ value error,
            decode C input = inr value
            ∧ getNotificationStatusUpdater C model (channel value)
                (messageId value) (notificationId value) (status value)
              = Fulfilled (inl error)
            ∧ message = errorMessage C error)
    ∧ (∀ reason : Rejection C,
          run.1 = Rejects reason
          ↔ ∃ value,
              decode C input = inr value
              ∧ getNotificationStatusUpdater C model (channel value)
                  (messageId value) (notificationId value) (status value)
                = RejectedWith reason)
    ∧ ((∃ value, decode C input = inr value) → run.1 ≠ Returned FAILURE).
Proof.
  intros C model input run. subst run.
  unfold getNotificationStatusUpdaterActivityHandler.
  destruct (decode C input) as [errors|value].
  - split; [|split].
    + intros message. split; [done|]. by intros (? & ? & ? & _).
    + intros reason. split; [done|]. by intros (? & ? & _).
    + by intros [? ?].
  - cbv zeta.
    destruct (getNotificationStatusUpdater C model _ _ _ _)
      as [[error|updated]|reason'] eqn:Hupdate; cbn [fst].
    + split; [|split; [|done]].
      * intros message. split.
        -- intros [= <-]. by exists value, error.
        -- intros (value' & error' & [= <-] & Hupdate' & ->).
           rewrite Hupdate in Hupdate'. by injection Hupdate' as <-.
      * intros reason. split; [done|].
        intros (value' & [= <-] & Hupdate'). congruence.
    + split; [|split; [|done]].
      * intros message. split; [done|].
        intros (value' & error' & [= <-] & Hupdate' & _). congruence.
      * intros reason. split; [done|].
        intros (value' & [= <-] & Hupdate'). congruence.
    + split; [|split; [|done]].
      * intros message. split; [done|].
        intros (value' & error' & [= <-] & Hupdate' & _). congruence.
      * intros reason. split.
        -- intros [= <-]. by exists value.
        -- intros (value' & [= <-] & Hupdate'). congruence.
Qed.

(** X15. An invocation asks for at most one update, before anything it
    logs: exactly one, with the channel, the identifiers and the status of
    the decoded input, when the input decodes, and none otherwise.  It logs
    at most one entry: none when the awaited updater rejects (the handler
    then ends with that rejection, uncaught), and exactly one in every other
    case.  It returns SUCCESS exactly when the input decodes and the updater
    is fulfilled with an updated status. *)
Theorem one_update_one_log_entry :
  ∀ (C : Collaborators) (model : NotificationStatusModel C)
    (input : Unknown C),
    let run := getNotificationStatusUpdaterActivityHandler C model input in
    run.2 = updates run.2 ++ logged run.2
    ∧ length (logged run.2)
      = match run.1 with Rejects _ => 0%nat | _ => 1%nat end
    ∧ updates run.2
      = match decode C input with
        | inl _ => []
        | inr value =>
            [UpdateStatus model (channel value) (messageId value)
               (notificationId value) (status value)]
        end
    ∧ (run.1 = Returned SUCCESS
       ↔ ∃ value updated,
           decode C input = inr value
           ∧ getNotificationStatusUpdater C model (channel value)
               (messageId value) (notificationId value) (status value)
             = Fulfilled (inr updated)).
Proof.
  intros C model input run. subst run.
  unfold getNotificationStatusUpdaterActivityHandler.
  destruct (decode C input) as [errors|value].
  - cbn. repeat split; try done. by intros (? & ? & ? & _).
  - cbv zeta.
    destruct (getNotificationStatusUpdater C model _ _ _ _)
      as [[error|updated]|reason] eqn:Hupdate; cbn.
    + repeat split; try done.
      intros (value' & updated & [= <-] & Hupdate'). congruence.
    + repeat split; try done. intros _. by exists value, updated.
    + repeat split; try done.
      intros (value' & updated & [= <-] & Hupdate'). congruence.
Qed.

(** The three ends of an invocation that decodes, on the example. *)
Example activity_ends :
  getNotificationStatusUpdaterActivityHandler exampleCollaborators ()
    (Some ("m", "down"))
  = (@Rejects exampleCollaborators "ECONNRESET",
     [@UpdateStatus exampleCollaborators () () "m" "down" ()])
  ∧ (getNotificationStatusUpdaterActivityHandler exampleCollaborators ()
       (Some ("m", "lost"))).1 = Thrown "not found"
  ∧ (getNotificationStatusUpdaterActivityHandler exampleCollaborators ()
       (Some ("m", "n"))).1 = Returned SUCCESS.
Proof. repeat split. Qed.

End ActivityProperties.

(** ** Empty arrays *)

(** X16. Nobody is reported as unsubscribed exactly when every user that
    unsubscribed that day is a new profile of that day. *)
Theorem unsubscriptions_empty_iff :
  ∀ ps ss us : JSSet.t,
    (reconcile ps ss us).2 = []
    ↔ JSSet.members us ⊆ JSSet.members ps.
Proof.
  intros ps ss us. split.
  - intros Hempty x Hx. apply elem_of_members in Hx.
    destruct (decide (x ∈ JSSet.values ps)) as [Hps|Hps];
      [by apply elem_of_members|].
    assert (x ∈ (reconcile ps ss us).2) as Hin
      by (by apply elem_of_unsubscriptions).
    rewrite Hempty in Hin. by apply elem_of_nil in Hin.
  - intros Hsub.
    destruct (reconcile ps ss us).2 as [|x l] eqn:Hunsubs; [done|].
    assert (x ∈ (reconcile ps ss us).2) as Hin
      by (rewrite Hunsubs; apply list_elem_of_here).
    apply elem_of_unsubscriptions in Hin as [Hus Hps].
    apply elem_of_members, Hsub, elem_of_members in Hus. done.
Qed.

(** X17. Once the date is available, when the three scans resolve to empty
    sets (a day without events), the handler answers with a feed for the
    date whose two arrays are empty, not with an error. *)
Theorem empty_day_feed :
  ∀ (tableService : TableService) (table : string) (now : Z)
    (attrs : IAzureUserAttributes) (date : string) (calls : list StoreCall)
    (ps ss us : JSSet.t),
    JSNumber.lt (JSNumber.Num now) (availableSince date) = false →
    fetched tableService table ("P-" +:+ date +:+ "-S") = Resolved ps →
    fetched tableService table
      ("S-" +:+ date +:+ "-" +:+ serviceId (service attrs) +:+ "-S")
    = Resolved ss →
    fetched tableService table
      ("S-" +:+ date +:+ "-" +:+ serviceId (service attrs) +:+ "-U")
    = Resolved us →
    JSSet.values ps = [] → JSSet.values ss = [] → JSSet.values us = [] →
    (GetSubscriptionsFeedHandler tableService table now attrs date calls).1
    = Resolved (ResponseSuccessJson
        {| dateUTC := date; subscriptions := []; unsubscriptions := [] |}).
Proof.
  intros tableService table now attrs date calls ps ss us Hgate HP HS HU
    Hps Hss Hus.
  rewrite handler_available by done. cbv zeta. rewrite HP, HS, HU. cbn [fst].
  rewrite reconcile_filters, Hps, Hss, Hus. reflexivity.
Qed.

Lemma empty_day_feed_witness :
  (GetSubscriptionsFeedHandler emptyStore "feed" 1619913600000
     exampleAttributes "2021-05-01" []).1
  = Resolved (ResponseSuccessJson
      {| dateUTC := "2021-05-01"; subscriptions := [];
         unsubscriptions := [] |}).
Proof.
  apply (empty_day_feed emptyStore "feed" 1619913600000 exampleAttributes
           "2021-05-01" [] JSSet.empty JSSet.empty JSSet.empty);
    reflexivity.
Defined.
